(** * ExecutionWsService: sessions, sandboxes and the listener's control file

    A shallow embedding of [src/execution-ws/execution-ws.service.ts].

    The service object owns a map from session ids to container handles and
    talks to two external collaborators: the Docker engine (through
    dockerode) and, inside each container, a POSIX shell that writes command
    records to [/commandListener/commands.txt].  Asynchronous methods are
    modelled in a state-and-exception monad over a [World] that holds the
    service's fields together with the state of the engine; a rejected
    promise is the [Rejected] outcome. *)

From Stdlib Require Import Ascii String List Bool Arith Lia.
From stdpp Require Import base option list gmap strings.

(** ** Characters and strings *)

Module Chars.

Definition dquote : ascii := "034"%char.
Definition dollar : ascii := "036"%char.
Definition backtick : ascii := "096"%char.
Definition backslash : ascii := "092"%char.
Definition newline : ascii := "010"%char.
Definition dash : ascii := "045"%char.

Definition str (c : ascii) : string := String c EmptyString.

End Chars.

Import Chars.

(** ** Promises

    An [await]ed promise either fulfils with a value or rejects with the
    value that was thrown.  The service has no [throw] and no error class
    of its own: whatever is thrown comes from a call to the engine, whose
    errors carry a diagnostic text. *)

Definition EngineError : Type := string.

Inductive Outcome (A : Type) : Type :=
  | Fulfilled (a : A)
  | Rejected (e : EngineError).

Arguments Fulfilled {A} a.
Arguments Rejected {A} e.

(** ** dockerode's request objects, as the service fills them in *)

Record HostConfig : Type := mkHostConfig {
  Runtime : string
}.

Record ContainerCreateOptions : Type := mkContainerCreateOptions {
  Image : string;
  Cmd : list string;
  Tty : bool;
  OpenStdin : bool;
  AttachStdin : bool;
  AttachStdout : bool;
  AttachStderr : bool;
  WorkingDir : string;
  HostConfig_ : HostConfig  (* the [HostConfig] key *)
}.

Record ExecCreateOptions : Type := mkExecCreateOptions {
  exec_Cmd : list string;
  exec_AttachStdin : bool;
  exec_AttachStdout : bool;
  exec_AttachStderr : bool;
  exec_Tty : bool
}.

Record ExecStartOptions : Type := mkExecStartOptions {
  Detach : bool
}.

(** Handles are references into the engine's tables. *)
Definition Container : Type := nat.
Definition Exec : Type := nat.

(** Every request handed to the engine, in the order it was made. *)
Inductive EngineCall : Type :=
  | CreateContainer (opts : ContainerCreateOptions)
  | StartContainer (c : Container)
  | ExecCreate (c : Container) (opts : ExecCreateOptions)
  | ExecStart (x : Exec) (opts : ExecStartOptions).

(** ** The shell inside the container

    Command records reach the listener through [sh -c] lines of the shape
    [echo "<text>" > <path>] and [echo "<text>" >> <path>].  The model of
    the shell covers exactly that shape: the double-quoted word must be
    literal (none of the four characters that keep a meaning inside double
    quotes), must not look like an option of [echo], and the redirection
    target must be a plain path.  Any other line is outside the model and
    [parse] answers [None] for it. *)

Module Sh.

Inductive Redirect : Type := Overwrite | Append.

Definition special (c : ascii) : bool :=
  Ascii.eqb c dquote || Ascii.eqb c dollar
  || Ascii.eqb c backtick || Ascii.eqb c backslash.

Fixpoint all_chars (p : ascii -> bool) (s : string) : bool :=
  match s with
  | EmptyString => true
  | String c s' => p c && all_chars p s'
  end.

(** A payload the shell takes literally between double quotes. *)
Definition literal (s : string) : bool := all_chars (fun c => negb (special c)) s.

(** Reads a double-quoted word whose opening quote was just consumed:
    the word and what follows its closing quote. *)
Fixpoint dq_scan (s : string) : option (string * string) :=
  match s with
  | EmptyString => None
  | String c s' =>
      if Ascii.eqb c dquote then Some (EmptyString, s')
      else if special c then None
      else match dq_scan s' with
           | Some (w, rest) => Some (String c w, rest)
           | None => None
           end
  end.

Fixpoint strip_prefix (p s : string) : option string :=
  match p, s with
  | EmptyString, _ => Some s
  | String a p', String b s' => if Ascii.eqb a b then strip_prefix p' s' else None
  | String _ _, EmptyString => None
  end.

Definition path_char (c : ascii) : bool :=
  let n := nat_of_ascii c in
  (48 <=? n) && (n <=? 57) || (65 <=? n) && (n <=? 90)
  || (97 <=? n) && (n <=? 122)
  || (n =? 47) || (n =? 46) || (n =? 95) || (n =? 45).

Definition plain_path (p : string) : bool :=
  match p with
  | EmptyString => false
  | String _ _ => all_chars path_char p
  end.

Definition parse_redirect (rest : string) : option (Redirect * string) :=
  match strip_prefix " >> " rest with
  | Some p => if plain_path p then Some (Append, p) else None
  | None =>
      match strip_prefix " > " rest with
      | Some p => if plain_path p then Some (Overwrite, p) else None
      | None => None
      end
  end.

Definition option_like (w : string) : bool :=
  match w with
  | String c _ => Ascii.eqb c dash
  | EmptyString => false
  end.

(** The first double-quoted word of an [echo] line and the text after it. *)
Definition quoted_word (line : string) : option (string * string) :=
  match strip_prefix "echo " line with
  | Some (String c s) => if Ascii.eqb c dquote then dq_scan s else None
  | _ => None
  end.

Definition parse (line : string) : option (Redirect * string * string) :=
  match quoted_word line with
  | Some (w, rest) =>
      if option_like w then None
      else match parse_redirect rest with
           | Some (r, p) => Some (r, p, w)
           | None => None
           end
  | None => None
  end.

(** [echo] prints its operand and a newline; [>] replaces the target's
    contents with that output and [>>] adds it at the end. *)
Definition write (r : Redirect) (p out : string) (fs : gmap string string)
  : gmap string string :=
  match r with
  | Overwrite => <[p := out]> fs
  | Append => <[p := default EmptyString (fs !! p) +:+ out]> fs
  end.

Definition run (argv : list string) (fs : gmap string string)
  : option (gmap string string) :=
  match argv with
  | [prog; flag; line] =>
      if String.eqb prog "sh" && String.eqb flag "-c" then
        match parse line with
        | Some (r, p, w) => Some (write r p (w +:+ str newline) fs)
        | None => None
        end
      else None
  | _ => None
  end.

End Sh.

(** ** The listener's protocol: newline-delimited records *)

Fixpoint split_lines (s : string) : list string :=
  match s with
  | EmptyString => [EmptyString]
  | String c s' =>
      if Ascii.eqb c newline then EmptyString :: split_lines s'
      else match split_lines s' with
           | l :: ls => String c l :: ls
           | [] => [String c EmptyString]
           end
  end.

Definition nonempty (s : string) : bool :=
  match s with EmptyString => false | String _ _ => true end.

(** The records a text holds: its lines, blank ones dropped. *)
Definition records (text : string) : list string := filter nonempty (split_lines text).

(** A text whose last line is complete: it is empty or ends with a newline. *)
Fixpoint terminated (s : string) : bool :=
  match s with
  | EmptyString => true
  | String c s' =>
      match s' with
      | EmptyString => Ascii.eqb c newline
      | String _ _ => terminated s'
      end
  end.

(** ** The engine behind dockerode

    The engine is an external collaborator.  Its model keeps the containers
    it created, the exec instances it was asked for, the log of every
    request, and [fault], which says for which requests the daemon answers
    with an error.  A container remembers the argument vectors of the
    one-shot commands that ran in it; its files are [None] once a command
    outside the shell model has run in it. *)

Record ContainerState : Type := mkContainerState {
  c_opts : ContainerCreateOptions;
  c_running : bool;
  c_files : option (gmap string string);
  c_history : list (list string)
}.

Record Engine : Type := mkEngine {
  containers : list ContainerState;
  execs : list (Container * ExecCreateOptions);
  calls : list EngineCall;
  fault : EngineCall -> option EngineError
}.

Module Docker.

Definition log (call : EngineCall) (g : Engine) : Engine :=
  mkEngine (containers g) (execs g) (calls g ++ [call]) (fault g).

Definition set_containers (cs : list ContainerState) (g : Engine) : Engine :=
  mkEngine cs (execs g) (calls g) (fault g).

Definition set_execs (xs : list (Container * ExecCreateOptions)) (g : Engine) : Engine :=
  mkEngine (containers g) xs (calls g) (fault g).

(** Answers a request: the request is logged, then either refused with
    the daemon's error or served by [serve]. *)
Definition request {A : Type} (call : EngineCall)
    (serve : Engine -> Outcome A * Engine) (g : Engine) : Outcome A * Engine :=
  let g1 := log call g in
  match fault g call with
  | Some e => (Rejected e, g1)
  | None => serve g1
  end.

Definition createContainer (opts : ContainerCreateOptions) (g : Engine)
  : Outcome Container * Engine :=
  request (CreateContainer opts)
    (fun g1 =>
       (Fulfilled (length (containers g1)),
        set_containers (containers g1 ++ [mkContainerState opts false (Some ∅) []]) g1))
    g.

Definition start (c : Container) (g : Engine) : Outcome unit * Engine :=
  request (StartContainer c)
    (fun g1 =>
       match containers g1 !! c with
       | Some st =>
           (Fulfilled tt,
            set_containers
              (<[c := mkContainerState (c_opts st) true (c_files st) (c_history st)]>
                 (containers g1)) g1)
       | None => (Rejected "No such container", g1)
       end)
    g.

Definition exec (c : Container) (opts : ExecCreateOptions) (g : Engine)
  : Outcome Exec * Engine :=
  request (ExecCreate c opts)
    (fun g1 =>
       match containers g1 !! c with
       | Some st =>
           if c_running st
           then (Fulfilled (length (execs g1)), set_execs (execs g1 ++ [(c, opts)]) g1)
           else (Rejected "Container is not running", g1)
       | None => (Rejected "No such container", g1)
       end)
    g.

Definition exec_start (x : Exec) (opts : ExecStartOptions) (g : Engine)
  : Outcome unit * Engine :=
  request (ExecStart x opts)
    (fun g1 =>
       match execs g1 !! x with
       | Some (c, xo) =>
           match containers g1 !! c with
           | Some st =>
               (Fulfilled tt,
                set_containers
                  (<[c := mkContainerState (c_opts st) (c_running st)
                            (c_files st ≫= Sh.run (exec_Cmd xo))
                            (c_history st ++ [exec_Cmd xo])]> (containers g1)) g1)
           | None => (Rejected "No such container", g1)
           end
       | None => (Rejected "No such exec instance", g1)
       end)
    g.

End Docker.

(** ** The service object and its surroundings *)

Record World : Type := mkWorld {
  runtime : string;
  pythonImage : string;
  sessionContainers : gmap string Container;
  docker : Engine;
  console : list string;
  host_dirs : list string;
  uuid_source : nat -> string;
  uuid_drawn : nat;
  dirname : string
}.

Definition set_sessionContainers (m : gmap string Container) (w : World) : World :=
  mkWorld (runtime w) (pythonImage w) m (docker w) (console w) (host_dirs w)
          (uuid_source w) (uuid_drawn w) (dirname w).

Definition set_docker (g : Engine) (w : World) : World :=
  mkWorld (runtime w) (pythonImage w) (sessionContainers w) g (console w) (host_dirs w)
          (uuid_source w) (uuid_drawn w) (dirname w).

Definition set_console (l : list string) (w : World) : World :=
  mkWorld (runtime w) (pythonImage w) (sessionContainers w) (docker w) l (host_dirs w)
          (uuid_source w) (uuid_drawn w) (dirname w).

Definition set_host_dirs (l : list string) (w : World) : World :=
  mkWorld (runtime w) (pythonImage w) (sessionContainers w) (docker w) (console w) l
          (uuid_source w) (uuid_drawn w) (dirname w).

Definition set_uuid_drawn (n : nat) (w : World) : World :=
  mkWorld (runtime w) (pythonImage w) (sessionContainers w) (docker w) (console w)
          (host_dirs w) (uuid_source w) n (dirname w).

(** [process.env.X || dflt]: an unset or empty variable gives the default. *)
Definition env_or (env : gmap string string) (name dflt : string) : string :=
  match env !! name with
  | Some v => if nonempty v then v else dflt
  | None => dflt
  end.

(** The field initialisers and the constructor. *)
Definition new_ExecutionWsService (env : gmap string string) (g : Engine)
    (ids : nat -> string) (dir : string) : World :=
  mkWorld (env_or env "DOCKER_RUNTIME" "runc")
          (env_or env "DOCKER_IMAGE_PYTHON" "python-interactive")
          ∅ g [] [] ids 0 dir.

(** ** Asynchronous methods *)

Definition M (A : Type) : Type := World -> Outcome A * World.

Definition ret {A : Type} (a : A) : M A := fun w => (Fulfilled a, w).

Definition bind {A B : Type} (m : M A) (k : A -> M B) : M B :=
  fun w =>
    match m w with
    | (Fulfilled a, w1) => k a w1
    | (Rejected e, w1) => (Rejected e, w1)
    end.

Notation "'let*' x ':=' m 'in' k" := (bind m (fun x => k))
  (at level 10, x name, m at level 100, k at level 200).

Definition this {A : Type} (field : World -> A) : M A := fun w => (Fulfilled (field w), w).

Definition modify (f : World -> World) : M unit := fun w => (Fulfilled tt, f w).

Definition engine {A : Type} (op : Engine -> Outcome A * Engine) : M A :=
  fun w => let (r, g) := op (docker w) in (r, set_docker g w).

Definition console_log (line : string) : M unit :=
  modify (fun w => set_console (console w ++ [line]) w).

Definition uuidv4 : M string :=
  fun w => (Fulfilled (uuid_source w (uuid_drawn w)), set_uuid_drawn (S (uuid_drawn w)) w).

Definition join (parts : list string) : string :=
  match parts with
  | [] => "."
  | p :: ps => fold_left (fun acc q => acc +:+ "/" +:+ q) ps p
  end.

(** [mkdirSync(path, { recursive: true })], on a host that lets the
    service create its directories. *)
Definition mkdirSync (path : string) : M unit :=
  modify (fun w => set_host_dirs (host_dirs w ++ [path]) w).

(** ** The methods of [ExecutionWsService] *)

Definition control_file : string := "/commandListener/commands.txt".

Definition registerContainer (sessionId : string) (container : Container) : M unit :=
  let* _ := modify (fun w => set_sessionContainers
                               (<[sessionId := container]> (sessionContainers w)) w) in
  console_log ("Registering container for session: " +:+ sessionId).

Definition getContainer (sessionId : string) : M (option Container) :=
  let* _ := console_log ("Retrieving container for session: " +:+ sessionId) in
  let* table := this sessionContainers in
  ret (table !! sessionId).

(** The object literal passed to [createContainer]. *)
Definition session_options (image rt : string) : ContainerCreateOptions :=
  {| Image := image;
     Cmd := ["node"; "/commandListener/commandListener.js"];
     Tty := true;
     OpenStdin := true;
     AttachStdin := true;
     AttachStdout := true;
     AttachStderr := true;
     WorkingDir := "/commandListener";
     HostConfig_ := {| Runtime := rt |} |}.

Definition startInteractiveSession (image tempDir : string) : M Container :=
  let* rt := this runtime in
  let* container := engine (Docker.createContainer (session_options image rt)) in
  let* _ := engine (Docker.start container) in
  ret container.

Definition startPythonSession : M string :=
  let* sessionId := uuidv4 in
  let* here := this dirname in
  let tempDir := join [here; "temp"; sessionId] in
  let* _ := mkdirSync tempDir in
  let* image := this pythonImage in
  let* container := startInteractiveSession image tempDir in
  let* _ := registerContainer sessionId container in
  ret sessionId.

(** The options every one-shot command is created with. *)
Definition sh_c (line : string) : ExecCreateOptions :=
  {| exec_Cmd := ["sh"; "-c"; line];
     exec_AttachStdin := true;
     exec_AttachStdout := true;
     exec_AttachStderr := true;
     exec_Tty := true |}.

Definition echo_to (text redirect : string) : string :=
  "echo " +:+ str dquote +:+ text +:+ str dquote +:+ " " +:+ redirect
  +:+ " " +:+ control_file.

Definition startProgram (container : Container) : M unit :=
  let* exec := engine (Docker.exec container (sh_c (echo_to "run" ">"))) in
  let* _ := engine (Docker.exec_start exec {| Detach := false |}) in
  ret tt.

(** The loop of [upsertFiles] over [Object.entries(files)]; [files] is that
    sequence of entries. *)
Definition commandString (files : list (string * string)) : string :=
  fold_left
    (fun acc entry =>
       let '(filename, content) := entry in
       acc +:+ ("upsert " +:+ filename +:+ " " +:+ content +:+ str newline))
    files EmptyString.

Definition upsertFiles (container : Container) (files : list (string * string)) : M unit :=
  let* exec := engine (Docker.exec container (sh_c (echo_to (commandString files) ">"))) in
  let* _ := engine (Docker.exec_start exec {| Detach := false |}) in
  ret tt.

Definition sendInput (container : Container) (input : string) : M unit :=
  let command := "input " +:+ input in
  let* exec := engine (Docker.exec container (sh_c (echo_to command ">>"))) in
  let* _ := engine (Docker.exec_start exec {| Detach := false |}) in
  ret tt.

(** ** Reading a world *)

Definition container_state (c : Container) (w : World) : option ContainerState :=
  containers (docker w) !! c.

(** The contents of a container's control file, when they are known; a
    file that was never written reads as empty. *)
Definition control_text (c : Container) (w : World) : option string :=
  st ← container_state c w;
  fs ← c_files st;
  Some (default EmptyString (fs !! control_file)).

(** The one-shot commands that ran in a container, oldest first. *)
Definition history (c : Container) (w : World) : list (list string) :=
  default [] (c_history <$> container_state c w).

(** What one command hands to the listener: the records in the text it
    writes to the control file. *)
Definition delivery (argv : list string) : list string :=
  match argv with
  | [_; _; line] =>
      match Sh.parse line with
      | Some (_, p, text) =>
          if String.eqb p control_file then records (text +:+ str newline) else []
      | None => []
      end
  | _ => []
  end.

(** The records written to the control file over a container's life, in
    the order of the commands that wrote them. *)
Definition delivered (c : Container) (w : World) : list string :=
  flat_map delivery (history c w).

(** A container that takes one-shot commands: it exists, it runs, and the
    daemon refuses no exec request. *)
Definition accepting (c : Container) (w : World) : Prop :=
  (∃ st, container_state c w = Some st ∧ c_running st = true)
  ∧ (∀ opts, fault (docker w) (ExecCreate c opts) = None)
  ∧ (∀ x opts, fault (docker w) (ExecStart x opts) = None).

(** The client's commands, and a client that awaits each before the next. *)
Inductive Command : Type :=
  | Upsert (files : list (string * string))
  | Run
  | Input (text : string).

Definition issue (c : Container) (cmd : Command) : M unit :=
  match cmd with
  | Upsert files => upsertFiles c files
  | Run => startProgram c
  | Input text => sendInput c text
  end.

Fixpoint issue_all (c : Container) (cmds : list Command) : M unit :=
  match cmds with
  | [] => ret tt
  | cmd :: rest => let* _ := issue c cmd in issue_all c rest
  end.

(** Registering one pair after another. *)
Fixpoint register_all (regs : list (string * Container)) : M unit :=
  match regs with
  | [] => ret tt
  | (sessionId, container) :: rest =>
      let* _ := registerContainer sessionId container in register_all rest
  end.

(** The tail the three delivery methods share: create an exec instance
    for [sh -c line], start it attached, return. *)
Definition one_shot (c : Container) (line : string) : M unit :=
  let* exec := engine (Docker.exec c (sh_c line)) in
  let* _ := engine (Docker.exec_start exec {| Detach := false |}) in
  ret tt.

Definition argv_of (line : string) : list string := ["sh"; "-c"; line].

(** The world a served one-shot command leaves behind. *)
Definition after_one_shot (c : Container) (line : string) (st : ContainerState)
    (w : World) : World :=
  let g := docker w in
  set_docker
    (mkEngine
       (<[c := mkContainerState (c_opts st) (c_running st)
                 (c_files st ≫= Sh.run (argv_of line))
                 (c_history st ++ [argv_of line])]> (containers g))
       (execs g ++ [(c, sh_c line)])
       (calls g ++ [ExecCreate c (sh_c line);
                    ExecStart (length (execs g)) {| Detach := false |}])
       (fault g))
    w.

(** The daemon refuses, with [e], to create the sandbox for [image], or
    creates it and refuses to start it. *)
Definition provision_fault (image : string) (w : World) (e : EngineError) : Prop :=
  let opts := session_options image (runtime w) in
  fault (docker w) (CreateContainer opts) = Some e
  ∨ (fault (docker w) (CreateContainer opts) = None
     ∧ fault (docker w) (StartContainer (length (containers (docker w)))) = Some e).

(** ** The records of the protocol, as the specification words them *)

Module Protocol.

Definition upsert_record (entry : string * string) : string :=
  "upsert " +:+ entry.1 +:+ " " +:+ entry.2.

Definition run_record : string := "run".

Definition input_record (text : string) : string := "input " +:+ text.

Definition records_of (cmd : Command) : list string :=
  match cmd with
  | Upsert files => map upsert_record files
  | Run => [run_record]
  | Input text => [input_record text]
  end.

(** Records joined into one text, a newline after each. *)
Fixpoint unlines (rs : list string) : string :=
  match rs with
  | [] => EmptyString
  | r :: rs' => r +:+ str newline +:+ unlines rs'
  end.

Definition no_newline (s : string) : bool :=
  Sh.all_chars (fun c => negb (Ascii.eqb c newline)) s.

(** A payload that is one line of literal text. *)
Definition clean (s : string) : bool := Sh.literal s && no_newline s.

Definition clean_command (cmd : Command) : bool :=
  match cmd with
  | Upsert files => forallb (fun e => clean e.1 && clean e.2) files
  | Run => true
  | Input text => clean text
  end.

End Protocol.

(** ** Concrete worlds *)

Module Sample.

Definition no_fault : EngineCall -> option EngineError := fun _ => None.

Definition idle_engine : Engine := mkEngine [] [] [] no_fault.

Definition ids (n : nat) : string :=
  "session-" +:+ str (ascii_of_nat (48 + n)).

(** A service just constructed, with an empty environment. *)
Definition fresh : World := new_ExecutionWsService ∅ idle_engine ids "/app".

(** An engine whose daemon cannot create containers. *)
Definition no_image (call : EngineCall) : option EngineError :=
  match call with
  | CreateContainer _ => Some "No such image: python-interactive"
  | _ => None
  end.

Definition broken : World :=
  new_ExecutionWsService ∅ (mkEngine [] [] [] no_image) ids "/app".

(** The world after one successful [startPythonSession]: container 0 runs
    for session [ids 0]. *)
Definition running : World := (startPythonSession fresh).2.

End Sample.

(** ** Callers

    The service is driven by a gateway that is not part of this file; what
    follows are the ways a caller can put the methods together. *)

(** One request to the service.  Each request is handled on its own: a
    rejected one leaves the world it reached and the next one goes on from
    there. *)
Inductive Call : Type :=
  | CallStartSession
  | CallGetContainer (sessionId : string)
  | CallStartProgram (c : Container)
  | CallUpsertFiles (c : Container) (files : list (string * string))
  | CallSendInput (c : Container) (input : string).

Definition perform (w : World) (call : Call) : World :=
  match call with
  | CallStartSession => (startPythonSession w).2
  | CallGetContainer sessionId => (getContainer sessionId w).2
  | CallStartProgram c => (startProgram c w).2
  | CallUpsertFiles c files => (upsertFiles c files w).2
  | CallSendInput c input => (sendInput c input w).2
  end.

Definition perform_all (calls : list Call) (w : World) : World :=
  fold_left perform calls w.

(** [n] sessions started one after the other; their ids, oldest first. *)
Fixpoint start_sessions (n : nat) : M (list string) :=
  match n with
  | O => ret []
  | S n' =>
      let* sessionId := startPythonSession in
      let* others := start_sessions n' in
      ret (sessionId :: others)
  end.

(** Every session of the table leads to a container that exists and runs. *)
Definition registry_sound (w : World) : Prop :=
  ∀ sessionId c,
    sessionContainers w !! sessionId = Some c ->
    ∃ st, container_state c w = Some st ∧ c_running st = true.

(** The daemon serves every request to create or start a container. *)
Definition provisioning (w : World) : Prop :=
  (∀ opts, fault (docker w) (CreateContainer opts) = None)
  ∧ (∀ c, fault (docker w) (StartContainer c) = None).

(** The daemon serves every exec request. *)
Definition executing (w : World) : Prop :=
  (∀ c opts, fault (docker w) (ExecCreate c opts) = None)
  ∧ (∀ x opts, fault (docker w) (ExecStart x opts) = None).

(** What the control file holds after a command, given the records it
    held: [upsertFiles] and [startProgram] replace them, [sendInput] adds
    one. *)
Definition file_after (held : list string) (cmd : Command) : list string :=
  match cmd with
  | Upsert files => map Protocol.upsert_record files
  | Run => [Protocol.run_record]
  | Input text => held ++ [Protocol.input_record text]
  end.

Definition no_space (s : string) : bool :=
  Sh.all_chars (fun c => negb (Ascii.eqb c " "%char)) s.

(** File entries that can be told apart in the text of the control file:
    names without space or line break, contents without line break. *)
Definition separable (files : list (string * string)) : bool :=
  forallb (fun e => no_space e.1 && Protocol.no_newline e.1 && Protocol.no_newline e.2)
          files.

Module Scenario.



(** A daemon that refuses to create exec instances. *)
Definition no_exec (call : EngineCall) : option EngineError :=
  match call with
  | ExecCreate _ _ => Some "exec create failed"
  | _ => None
  end.

(** A daemon that creates exec instances and refuses to start them. *)
Definition no_exec_start (call : EngineCall) : option EngineError :=
  match call with
  | ExecStart _ _ => Some "exec start failed"
  | _ => None
  end.

Definition with_fault (f : EngineCall -> option EngineError) (w : World) : World :=
  set_docker
    (mkEngine (containers (docker w)) (execs (docker w)) (calls (docker w)) f) w.

(** A running session whose container holds [run] and an input. *)
Definition busy : World := (issue_all 0 [Run; Input "42"] Sample.running).2.

(** Two sessions, each with its own container. *)
Definition two_sessions : World := (start_sessions 2 Sample.fresh).2.

(** A service whose source of ids gives the same id again and again. *)
Definition repeating : World :=
  new_ExecutionWsService ∅ Sample.idle_engine (fun _ => "session-x") "/app".

End Scenario.

(** * Properties *)

(** ** Text *)

Section Text.

Implicit Types (s t u : string) (p : ascii -> bool).

Lemma append_nil t : EmptyString +:+ t = t.
Proof. reflexivity. Qed.

Lemma append_cons c s t : String c s +:+ t = String c (s +:+ t).
Proof. reflexivity. Qed.

Lemma append_assoc s t u : (s +:+ t) +:+ u = s +:+ (t +:+ u).
Proof.
  induction s as [|c s IH]; [done |].
  rewrite !append_cons. by f_equal.
Qed.

Lemma append_empty_r s : s +:+ EmptyString = s.
Proof.
  induction s as [|c s IH]; [done |].
  rewrite append_cons. by f_equal.
Qed.

Lemma all_chars_append p s t :
  Sh.all_chars p (s +:+ t) = Sh.all_chars p s && Sh.all_chars p t.
Proof.
  induction s as [|c s IH]; [done |].
  rewrite append_cons. simpl. rewrite IH. by rewrite andb_assoc.
Qed.

Lemma not_special_not_dquote c : Sh.special c = false -> Ascii.eqb c dquote = false.
Proof. unfold Sh.special. intros H. by repeat apply orb_false_elim in H as [H _]. Qed.

(** The scanner stops at the quote that follows a literal payload. *)
Lemma dq_scan_literal s rest :
  Sh.literal s = true -> Sh.dq_scan (s +:+ String dquote rest) = Some (s, rest).
Proof.
  unfold Sh.literal. induction s as [|c s IH]; intros H.
  - rewrite append_nil. simpl. done.
  - simpl in H. apply andb_true_iff in H as [Hc Hs]. apply negb_true_iff in Hc.
    rewrite append_cons. simpl.
    rewrite (not_special_not_dquote _ Hc), Hc, (IH Hs). done.
Qed.

Lemma quoted_word_echo_to s redirect :
  Sh.literal s = true ->
  Sh.quoted_word (echo_to s redirect)
  = Some (s, " " +:+ redirect +:+ " " +:+ control_file).
Proof.
  intros H. unfold Sh.quoted_word, echo_to, str.
  rewrite !append_cons, !append_nil. simpl.
  by apply dq_scan_literal.
Qed.

Lemma parse_overwrite s :
  Sh.literal s = true -> Sh.option_like s = false ->
  Sh.parse (echo_to s ">") = Some (Sh.Overwrite, control_file, s).
Proof.
  intros Hl Ho. unfold Sh.parse. rewrite (quoted_word_echo_to _ _ Hl), Ho. done.
Qed.

Lemma parse_append s :
  Sh.literal s = true -> Sh.option_like s = false ->
  Sh.parse (echo_to s ">>") = Some (Sh.Append, control_file, s).
Proof.
  intros Hl Ho. unfold Sh.parse. rewrite (quoted_word_echo_to _ _ Hl), Ho. done.
Qed.

(** Lines. *)

Lemma split_lines_cons_line s t :
  Protocol.no_newline s = true ->
  split_lines (s +:+ String newline t) = s :: split_lines t.
Proof.
  unfold Protocol.no_newline. induction s as [|c s IH]; intros H.
  - done.
  - simpl in H. apply andb_true_iff in H as [Hc Hs]. apply negb_true_iff in Hc.
    rewrite append_cons. simpl. rewrite Hc, (IH Hs). done.
Qed.

Lemma split_lines_nonnil s : split_lines s <> [].
Proof.
  induction s as [|c s IH]; simpl; [done |].
  destruct (Ascii.eqb c newline); [done |]. by destruct (split_lines s).
Qed.

Lemma split_lines_unlines rs t :
  Forall (fun r => Protocol.no_newline r = true) rs ->
  split_lines (Protocol.unlines rs +:+ t) = rs ++ split_lines t.
Proof.
  induction 1 as [|r rs Hr _ IH]; [done |].
  simpl. rewrite !append_assoc. unfold str. rewrite append_cons, append_nil.
  rewrite (split_lines_cons_line _ _ Hr), IH. done.
Qed.

Lemma records_unlines rs :
  Forall (fun r => Protocol.no_newline r = true) rs ->
  Forall (fun r => nonempty r = true) rs ->
  records (Protocol.unlines rs +:+ str newline) = rs.
Proof.
  intros Hn He. unfold records. rewrite (split_lines_unlines _ _ Hn).
  rewrite filter_app.
  replace (filter nonempty (split_lines (str newline))) with (@nil string)
    by reflexivity.
  rewrite app_nil_r. clear Hn.
  induction He as [|r rs Hr _ IH]; [done |].
  rewrite filter_cons_True by (by rewrite Hr). by rewrite IH.
Qed.

Lemma records_line s :
  Protocol.no_newline s = true -> nonempty s = true ->
  records (s +:+ str newline) = [s].
Proof.
  intros Hn He. unfold records, str.
  rewrite (split_lines_cons_line _ _ Hn). simpl.
  rewrite filter_cons_True by (by rewrite He). done.
Qed.

Lemma split_lines_only_blank s : split_lines s = [EmptyString] -> s = EmptyString.
Proof.
  destruct s as [|c s]; [done |]. simpl.
  destruct (Ascii.eqb c newline).
  - intros H. injection H as H. by apply split_lines_nonnil in H.
  - destruct (split_lines s); discriminate.
Qed.

Lemma split_lines_step c s :
  split_lines (String c s)
  = if Ascii.eqb c newline then EmptyString :: split_lines s
    else match split_lines s with
         | l :: ls => String c l :: ls
         | [] => [String c EmptyString]
         end.
Proof. reflexivity. Qed.

Lemma split_lines_terminated s :
  terminated s = true ->
  ∃ ls, split_lines s = ls ++ [EmptyString]
        ∧ ∀ t, split_lines (s +:+ t) = ls ++ split_lines t.
Proof.
  induction s as [|c s IH]; intros Hterm.
  - by exists [].
  - destruct s as [|c' s'].
    + simpl in Hterm. exists [EmptyString]. split.
      * simpl. by rewrite Hterm.
      * intros t. rewrite append_cons, append_nil. simpl. by rewrite Hterm.
    + destruct (IH Hterm) as (ls & Hls & Happ).
      destruct (Ascii.eqb c newline) eqn:Hc.
      * exists (EmptyString :: ls). split.
        -- by rewrite split_lines_step, Hc, Hls.
        -- intros t. by rewrite append_cons, split_lines_step, Hc, Happ.
      * destruct ls as [|l ls].
        { apply split_lines_only_blank in Hls. discriminate. }
        exists (String c l :: ls). split.
        -- by rewrite split_lines_step, Hc, Hls.
        -- intros t. by rewrite append_cons, split_lines_step, Hc, Happ.
Qed.

(** Text added after a complete last line adds its own records and leaves
    the earlier ones as they were. *)
Lemma records_after_terminated s t :
  terminated s = true -> records (s +:+ t) = records s ++ records t.
Proof.
  intros Hterm. destruct (split_lines_terminated s Hterm) as (ls & Hls & Happ).
  unfold records. rewrite Happ, Hls, !filter_app.
  replace (filter nonempty [EmptyString]) with (@nil string) by reflexivity.
  by rewrite app_nil_r.
Qed.

End Text.

(** ** The encoder *)

Section Encoder.

Import Protocol.

Lemma commandString_from acc files :
  fold_left
    (fun acc entry =>
       let '(filename, content) := entry in
       acc +:+ ("upsert " +:+ filename +:+ " " +:+ content +:+ str newline))
    files acc
  = acc +:+ unlines (map upsert_record files).
Proof.
  revert acc. induction files as [|[filename content] files IH]; intros acc.
  - simpl. by rewrite append_empty_r.
  - simpl. rewrite IH. unfold upsert_record. simpl.
    by rewrite !append_assoc.
Qed.

(** The loop builds the records of the files, in the order of the
    entries, a newline after each. *)
Lemma commandString_unlines files :
  commandString files = unlines (map upsert_record files).
Proof. unfold commandString. by rewrite commandString_from. Qed.

Lemma literal_unlines rs :
  Forall (fun r => Sh.literal r = true) rs -> Sh.literal (unlines rs) = true.
Proof.
  unfold Sh.literal. induction 1 as [|r rs Hr _ IH]; [done |].
  simpl. rewrite !all_chars_append, Hr, IH. done.
Qed.

Lemma option_like_unlines_upsert files :
  Sh.option_like (unlines (map upsert_record files)) = false.
Proof. by destruct files. Qed.

Lemma clean_upsert_record entry :
  clean entry.1 && clean entry.2 = true ->
  Sh.literal (upsert_record entry) = true
  ∧ no_newline (upsert_record entry) = true
  ∧ nonempty (upsert_record entry) = true.
Proof.
  unfold clean, upsert_record, Sh.literal, no_newline. intros H.
  apply andb_true_iff in H as [Hn Hc].
  apply andb_true_iff in Hn as [Hn1 Hn2].
  apply andb_true_iff in Hc as [Hc1 Hc2].
  rewrite !all_chars_append. repeat split.
  - by rewrite Hn1, Hc1.
  - by rewrite Hn2, Hc2.
Qed.

Lemma clean_input_record text :
  clean text = true ->
  Sh.literal (input_record text) = true
  ∧ no_newline (input_record text) = true
  ∧ nonempty (input_record text) = true
  ∧ Sh.option_like (input_record text) = false.
Proof.
  unfold clean, input_record, Sh.literal, no_newline. intros H.
  apply andb_true_iff in H as [H1 H2].
  rewrite !all_chars_append. repeat split.
  - by rewrite H1.
  - by rewrite H2.
Qed.

Lemma clean_upsert_records files :
  forallb (fun e => clean e.1 && clean e.2) files = true ->
  Forall (fun r => Sh.literal r = true) (map upsert_record files)
  ∧ Forall (fun r => no_newline r = true) (map upsert_record files)
  ∧ Forall (fun r => nonempty r = true) (map upsert_record files).
Proof.
  induction files as [|e files IH]; simpl; intros H.
  - repeat split; constructor.
  - apply andb_true_iff in H as [He Hf].
    destruct (clean_upsert_record e He) as (? & ? & ?).
    destruct (IH Hf) as (? & ? & ?).
    repeat split; by constructor.
Qed.

End Encoder.

(** ** One-shot commands *)

Section OneShot.

Lemma startProgram_one_shot c : startProgram c = one_shot c (echo_to "run" ">").
Proof. reflexivity. Qed.

Lemma upsertFiles_one_shot c files :
  upsertFiles c files = one_shot c (echo_to (commandString files) ">").
Proof. reflexivity. Qed.

Lemma sendInput_one_shot c input :
  sendInput c input = one_shot c (echo_to ("input " +:+ input) ">>").
Proof. reflexivity. Qed.

Lemma one_shot_served c line w st :
  container_state c w = Some st ->
  accepting c w ->
  one_shot c line w = (Fulfilled tt, after_one_shot c line st w).
Proof.
  intros Hst ((st' & Hst' & Hrun) & Hcreate & Hstart).
  rewrite Hst in Hst'. injection Hst' as <-.
  unfold container_state in Hst.
  unfold one_shot, bind, engine, Docker.exec, Docker.request. simpl.
  rewrite Hcreate, Hst, Hrun. simpl.
  unfold Docker.exec_start, Docker.request. simpl.
  rewrite Hstart. simpl.
  rewrite list_lookup_middle by done. simpl. rewrite Hst.
  unfold ret, after_one_shot, set_docker, Docker.set_containers. simpl.
  rewrite <- !app_assoc. done.
Qed.

Lemma container_state_after c line w st :
  container_state c w = Some st ->
  container_state c (after_one_shot c line st w)
  = Some (mkContainerState (c_opts st) (c_running st)
            (c_files st ≫= Sh.run (argv_of line))
            (c_history st ++ [argv_of line])).
Proof.
  unfold container_state. intros Hst. simpl.
  apply list_lookup_insert_eq. by eapply lookup_lt_Some.
Qed.

Lemma accepting_after c line w st :
  container_state c w = Some st ->
  accepting c w ->
  accepting c (after_one_shot c line st w).
Proof.
  intros Hst ((st' & Hst' & Hrun) & Hcreate & Hstart).
  rewrite Hst in Hst'. injection Hst' as <-.
  split; [| done].
  eexists. split; [by apply container_state_after |]. done.
Qed.

Lemma history_after c line w st :
  container_state c w = Some st ->
  history c (after_one_shot c line st w) = history c w ++ [argv_of line].
Proof.
  intros Hst. unfold history.
  rewrite (container_state_after _ _ _ _ Hst), Hst. done.
Qed.

Lemma calls_after c line w st :
  calls (docker (after_one_shot c line st w))
  = calls (docker w)
      ++ [ExecCreate c (sh_c line);
          ExecStart (length (execs (docker w))) {| Detach := false |}].
Proof. reflexivity. Qed.

Lemma sessionContainers_after c line w st :
  sessionContainers (after_one_shot c line st w) = sessionContainers w.
Proof. reflexivity. Qed.

(** What a parsed line does to the control file. *)
Lemma control_text_after c line w st r text old :
  container_state c w = Some st ->
  control_text c w = Some old ->
  Sh.parse line = Some (r, control_file, text) ->
  control_text c (after_one_shot c line st w)
  = Some (match r with
          | Sh.Overwrite => text +:+ str newline
          | Sh.Append => old +:+ text +:+ str newline
          end).
Proof.
  intros Hst Hold Hparse. unfold control_text in *.
  rewrite (container_state_after _ _ _ _ Hst). rewrite Hst in Hold.
  simpl in *. destruct (c_files st) as [fs|]; [| done]. simpl in *.
  injection Hold as <-.
  rewrite Hparse. simpl.
  destruct r; simpl; by rewrite lookup_insert_eq.
Qed.

Lemma delivery_parsed line r text :
  Sh.parse line = Some (r, control_file, text) ->
  delivery (argv_of line) = records (text +:+ str newline).
Proof. intros H. unfold delivery, argv_of. by rewrite H. Qed.

End OneShot.

(** ** The session registry *)

Section Registry.

Lemma registerContainer_world sessionId container w :
  registerContainer sessionId container w
  = (Fulfilled tt,
     set_console
       (console w ++ ["Registering container for session: " +:+ sessionId])
       (set_sessionContainers (<[sessionId := container]> (sessionContainers w)) w)).
Proof. reflexivity. Qed.

Lemma getContainer_lookup sessionId w :
  (getContainer sessionId w).1 = Fulfilled (sessionContainers w !! sessionId).
Proof. reflexivity. Qed.

Lemma register_all_unbound regs sessionId w :
  sessionId ∉ regs.*1 ->
  sessionContainers (register_all regs w).2 !! sessionId
  = sessionContainers w !! sessionId.
Proof.
  revert w. induction regs as [|[id c] regs IH]; intros w Hnotin; [done |].
  rewrite fmap_cons in Hnotin. apply not_elem_of_cons in Hnotin as [Hne Hrest].
  simpl. unfold bind. rewrite registerContainer_world.
  rewrite (IH _ Hrest). simpl. by rewrite lookup_insert_ne.
Qed.

End Registry.

(** Claim C3, refuted as stated: registering a second sandbox under a
    session id that is already bound does not fail; the call fulfils and
    the id is bound to the new sandbox, the earlier binding being lost. *)
Lemma registerContainer_replaces_bound_id :
  let w := (registerContainer "s" 0 Sample.fresh).2 in
  sessionContainers w !! "s" = Some 0
  ∧ (registerContainer "s" 1 w).1 = Fulfilled tt
  ∧ sessionContainers (registerContainer "s" 1 w).2 !! "s" = Some 1.
Proof. vm_compute. done. Qed.

(** Claim C3, amended: for every session id and sandbox, registering always
    fulfils, whether or not the id was bound, and leaves the table equal to
    the old one with the id bound to the given sandbox; the engine is not
    touched. *)
Theorem registerContainer_binds (sessionId : string) (container : Container) (w : World) :
  ∃ w', registerContainer sessionId container w = (Fulfilled tt, w')
        ∧ sessionContainers w' = <[sessionId := container]> (sessionContainers w)
        ∧ docker w' = docker w.
Proof. eexists. by rewrite registerContainer_world. Qed.

(** Claim C4, refuted as stated: resolving an id that was never registered
    does not fail; the promise fulfils, with [undefined]. *)
Lemma getContainer_unknown_fulfils :
  (getContainer "ghost" Sample.fresh).1 = Fulfilled None
  ∧ ∀ e, (getContainer "ghost" Sample.fresh).1 ≠ Rejected e.
Proof. split; [reflexivity | discriminate]. Qed.

(** Claim C4, amended: on a service on which only ids other than
    [sessionId] were ever registered, resolving [sessionId] fulfils with
    [undefined]; and resolving right after [registerContainer sessionId s]
    fulfils with exactly [s]. *)
Theorem getContainer_resolves
    (env : gmap string string) (g : Engine) (ids : nat -> string) (dir : string)
    (regs : list (string * Container)) (sessionId : string) :
  sessionId ∉ regs.*1 ->
  (getContainer sessionId
     (register_all regs (new_ExecutionWsService env g ids dir)).2).1 = Fulfilled None
  ∧ ∀ (w : World) (s : Container),
      (getContainer sessionId (registerContainer sessionId s w).2).1 = Fulfilled (Some s).
Proof.
  intros Hnotin. split.
  - rewrite getContainer_lookup, (register_all_unbound _ _ _ Hnotin). done.
  - intros w s. rewrite getContainer_lookup, registerContainer_world. simpl.
    by rewrite lookup_insert_eq.
Qed.

Lemma getContainer_resolves_witness :
  (getContainer "c"
     (register_all [("a", 0); ("b", 1)] Sample.fresh).2).1 = Fulfilled None
  ∧ ∀ (w : World) (s : Container),
      (getContainer "c" (registerContainer "c" s w).2).1 = Fulfilled (Some s).
Proof.
  apply (getContainer_resolves ∅ Sample.idle_engine Sample.ids "/app"
           [("a", 0); ("b", 1)] "c").
  vm_compute. intros H. repeat (apply elem_of_cons in H as [H | H]; [discriminate |]).
  by apply elem_of_nil in H.
Defined.

(** ** Provisioning *)

Section Provisioning.

Lemma startInteractiveSession_create_refused image tempDir w e :
  fault (docker w) (CreateContainer (session_options image (runtime w))) = Some e ->
  startInteractiveSession image tempDir w
  = (Rejected e,
     set_docker (Docker.log (CreateContainer (session_options image (runtime w)))
                   (docker w)) w).
Proof.
  intros H.
  unfold startInteractiveSession, bind, this, engine, Docker.createContainer,
    Docker.request.
  simpl. by rewrite H.
Qed.

Lemma startInteractiveSession_start_refused image tempDir w e :
  let opts := session_options image (runtime w) in
  let c := length (containers (docker w)) in
  fault (docker w) (CreateContainer opts) = None ->
  fault (docker w) (StartContainer c) = Some e ->
  startInteractiveSession image tempDir w
  = (Rejected e,
     set_docker
       (mkEngine (containers (docker w) ++ [mkContainerState opts false (Some ∅) []])
          (execs (docker w))
          (calls (docker w) ++ [CreateContainer opts; StartContainer c])
          (fault (docker w))) w).
Proof.
  intros opts c Hcreate Hstart.
  unfold startInteractiveSession, bind, this, engine, Docker.createContainer,
    Docker.request.
  simpl. fold opts. rewrite Hcreate. simpl.
  unfold Docker.start, Docker.request. simpl. fold c. rewrite Hstart.
  unfold set_docker, Docker.log. simpl. by rewrite <- app_assoc.
Qed.

Lemma startInteractiveSession_started image tempDir w :
  let opts := session_options image (runtime w) in
  let c := length (containers (docker w)) in
  fault (docker w) (CreateContainer opts) = None ->
  fault (docker w) (StartContainer c) = None ->
  startInteractiveSession image tempDir w
  = (Fulfilled c,
     set_docker
       (mkEngine (containers (docker w) ++ [mkContainerState opts true (Some ∅) []])
          (execs (docker w))
          (calls (docker w) ++ [CreateContainer opts; StartContainer c])
          (fault (docker w))) w).
Proof.
  intros opts c Hcreate Hstart.
  unfold startInteractiveSession, bind, this, engine, Docker.createContainer,
    Docker.request.
  simpl. fold opts. rewrite Hcreate. simpl.
  unfold Docker.start, Docker.request. simpl. fold c. rewrite Hstart. simpl.
  rewrite list_lookup_middle by done. simpl.
  unfold ret, set_docker, Docker.set_containers, Docker.log. simpl.
  rewrite <- app_assoc. simpl.
  replace c with (length (containers (docker w)) + 0) at 2 by (unfold c; lia).
  rewrite insert_app_r. done.
Qed.

(** A failed provisioning changes nothing but the engine. *)
Lemma startInteractiveSession_rejected image tempDir w e :
  provision_fault image w e ->
  ∃ g, startInteractiveSession image tempDir w = (Rejected e, set_docker g w).
Proof.
  intros [Hcreate | [Hcreate Hstart]].
  - eexists. by apply startInteractiveSession_create_refused.
  - eexists. by apply startInteractiveSession_start_refused.
Qed.

End Provisioning.

(** Claim C5, refuted as stated: when the daemon cannot create the sandbox
    the promise rejects with the daemon's own error, not with an error that
    wraps it; and the workspace directory plays no part in what is asked
    of the engine, two different directories giving the same requests and
    the same world. *)
Lemma startInteractiveSession_raw_error_no_mount :
  fault (docker Sample.broken)
    (CreateContainer (session_options "python-interactive" "runc"))
  = Some "No such image: python-interactive"
  ∧ (startInteractiveSession "python-interactive" "/app/temp/a" Sample.broken).1
    = Rejected "No such image: python-interactive"
  ∧ startInteractiveSession "python-interactive" "/app/temp/a" Sample.fresh
    = startInteractiveSession "python-interactive" "/app/temp/b" Sample.fresh
  ∧ calls (docker (startInteractiveSession "python-interactive" "/app/temp/a" Sample.fresh).2)
    = [CreateContainer (session_options "python-interactive" "runc"); StartContainer 0].
Proof. repeat split. Qed.

(** Claim C5, amended: for every image and workspace directory, the sandbox
    is requested with the given image, the fixed listener command, a
    terminal and stdin open and attached; if the daemon refuses creation
    or start, the promise rejects with the daemon's error as it is and no
    container is returned, and otherwise the new container is returned
    running.  Nothing is said about the workspace directory. *)
Theorem startInteractiveSession_outcome (image tempDir : string) (w : World) :
  let opts := session_options image (runtime w) in
  let c := length (containers (docker w)) in
  (Image opts = image
   ∧ Cmd opts = ["node"; "/commandListener/commandListener.js"]
   ∧ Tty opts = true ∧ OpenStdin opts = true ∧ AttachStdin opts = true)
  ∧ ∃ w', (startInteractiveSession image tempDir w).2 = w'
      ∧ match fault (docker w) (CreateContainer opts),
              fault (docker w) (StartContainer c) with
        | Some e, _ =>
            (startInteractiveSession image tempDir w).1 = Rejected e
            ∧ calls (docker w') = calls (docker w) ++ [CreateContainer opts]
            ∧ containers (docker w') = containers (docker w)
        | None, Some e =>
            (startInteractiveSession image tempDir w).1 = Rejected e
            ∧ calls (docker w')
              = calls (docker w) ++ [CreateContainer opts; StartContainer c]
        | None, None =>
            (startInteractiveSession image tempDir w).1 = Fulfilled c
            ∧ calls (docker w')
              = calls (docker w) ++ [CreateContainer opts; StartContainer c]
            ∧ container_state c w' = Some (mkContainerState opts true (Some ∅) [])
        end.
Proof.
  intros opts c. split; [done |]. eexists. split; [done |].
  destruct (fault (docker w) (CreateContainer opts)) as [e|] eqn:Hcreate.
  - rewrite (startInteractiveSession_create_refused _ _ _ _ Hcreate). done.
  - destruct (fault (docker w) (StartContainer c)) as [e|] eqn:Hstart.
    + rewrite (startInteractiveSession_start_refused _ _ _ _ Hcreate Hstart). done.
    + rewrite (startInteractiveSession_started _ _ _ Hcreate Hstart).
      repeat split. unfold container_state. simpl.
      by apply list_lookup_middle.
Qed.

(** Claim C6: if the engine fails to create or to start the sandbox while a
    session is being started, [startPythonSession] rejects with that error
    and the table of sessions is what it was: the new id is not bound. *)
Theorem startPythonSession_provision_failure (w : World) (e : EngineError) :
  provision_fault (pythonImage w) w e ->
  ∃ w', startPythonSession w = (Rejected e, w')
        ∧ sessionContainers w' = sessionContainers w.
Proof.
  intros Hfault.
  set (sessionId := uuid_source w (uuid_drawn w)).
  set (tempDir := join [dirname w; "temp"; sessionId]).
  set (w1 := set_host_dirs (host_dirs w ++ [tempDir])
               (set_uuid_drawn (S (uuid_drawn w)) w)).
  destruct (startInteractiveSession_rejected (pythonImage w) tempDir w1 e Hfault)
    as [g Hrejected].
  exists (set_docker g w1). split; [| done].
  cbv beta iota zeta delta [startPythonSession bind uuidv4 this mkdirSync modify].
  change (startInteractiveSession _ _ _)
    with (startInteractiveSession (pythonImage w) tempDir w1).
  by rewrite Hrejected.
Qed.

Lemma startPythonSession_provision_failure_witness :
  ∃ w', startPythonSession Sample.broken
        = (Rejected "No such image: python-interactive", w')
        ∧ sessionContainers w' = sessionContainers Sample.broken.
Proof.
  apply (startPythonSession_provision_failure Sample.broken).
  left. reflexivity.
Defined.

(** ** Delivering commands *)

Section Delivery.

Import Protocol.

Lemma accepting_state c w : accepting c w -> ∃ st, container_state c w = Some st.
Proof. intros ((st & Hst & _) & _). by exists st. Qed.

Lemma parse_upsert files :
  Sh.literal (commandString files) = true ->
  Sh.parse (echo_to (commandString files) ">")
  = Some (Sh.Overwrite, control_file, commandString files).
Proof.
  intros Hl. apply parse_overwrite; [done |].
  rewrite commandString_unlines. apply option_like_unlines_upsert.
Qed.

(** A clean command is one served one-shot command, and that command
    hands the listener the records of the command. *)
Lemma issue_served c cmd w st :
  container_state c w = Some st ->
  accepting c w ->
  clean_command cmd = true ->
  ∃ line, issue c cmd w = (Fulfilled tt, after_one_shot c line st w)
          ∧ delivery (argv_of line) = records_of cmd.
Proof.
  intros Hst Hacc Hclean.
  destruct cmd as [files | | text]; simpl in Hclean; cbn [issue records_of].
  - exists (echo_to (commandString files) ">"). split.
    + rewrite upsertFiles_one_shot. by apply one_shot_served.
    + destruct (clean_upsert_records files Hclean) as (Hl & Hn & He).
      rewrite (delivery_parsed _ Sh.Overwrite (commandString files)).
      * rewrite commandString_unlines. by apply records_unlines.
      * apply parse_upsert. rewrite commandString_unlines. by apply literal_unlines.
  - exists (echo_to "run" ">"). split.
    + rewrite startProgram_one_shot. by apply one_shot_served.
    + reflexivity.
  - exists (echo_to (input_record text) ">>"). split.
    + rewrite sendInput_one_shot. by apply one_shot_served.
    + destruct (clean_input_record text Hclean) as (Hl & Hn & He & Ho).
      rewrite (delivery_parsed _ Sh.Append (input_record text)).
      * by apply records_line.
      * by apply parse_append.
Qed.

Lemma delivered_after c line w st :
  container_state c w = Some st ->
  delivered c (after_one_shot c line st w) = delivered c w ++ delivery (argv_of line).
Proof.
  intros Hst. unfold delivered. rewrite (history_after _ _ _ _ Hst), flat_map_app.
  simpl. by rewrite app_nil_r.
Qed.

(** The specification's own example, and what the control file holds at
    the end of it: [run] replaced the two [upsert] records. *)
Example upsert_then_run :
  let w := (issue_all 0 [Upsert [("a.txt", "hi"); ("b.txt", "yo")]; Run]
              Sample.running).2 in
  delivered 0 w = ["upsert a.txt hi"; "upsert b.txt yo"; "run"]
  ∧ (records <$> control_text 0 w) = Some ["run"].
Proof. vm_compute. done. Qed.

End Delivery.



Lemma sample_running_accepting : accepting 0 Sample.running.
Proof.
  split; [| split; intros; reflexivity].
  eexists. split; reflexivity.
Qed.


(** Claim C7, refuted as stated: one file whose content has a line break
    is not one record.  The mapping has a single entry, its encoded text is
    literal for the shell, the one invocation is served, and the control
    file then holds two records, the second of them a [run]. *)
Lemma upsertFiles_one_file_two_records_in_file :
  let content := "hi" +:+ str newline +:+ "run" in
  let files := [("a.txt", content)] in
  length files = 1
  ∧ Sh.literal (commandString files) = true
  ∧ (upsertFiles 0 files Sample.running).1 = Fulfilled tt
  ∧ (records <$> control_text 0 (upsertFiles 0 files Sample.running).2)
    = Some ["upsert a.txt hi"; "run"].
Proof. vm_compute. done. Qed.

(** Claim C7, amended: for every sequence of file entries, [upsertFiles]
    builds the text made of [upsert <filename> <content>] and a newline for
    each entry, in the order of the entries, and hands it to the sandbox in
    one shell invocation that redirects [echo] to the control file with
    [>].  When that text is literal for the shell, the control file
    afterwards holds the text and nothing of what it held before; when
    moreover every file name and content is a single line, the records of
    the file are exactly one per entry, in the order of the entries. *)
Theorem upsertFiles_one_overwriting_invocation
    (c : Container) (files : list (string * string)) (w : World) :
  accepting c w ->
  let text := Protocol.unlines (map Protocol.upsert_record files) in
  commandString files = text
  ∧ ∃ w', upsertFiles c files w = (Fulfilled tt, w')
      ∧ history c w' = history c w ++ [["sh"; "-c"; echo_to text ">"]]
      ∧ calls (docker w')
        = calls (docker w)
            ++ [ExecCreate c (sh_c (echo_to text ">"));
                ExecStart (length (execs (docker w))) {| Detach := false |}]
      ∧ (Sh.literal text = true ->
         ∀ old, control_text c w = Some old ->
                control_text c w' = Some (text +:+ str newline))
      ∧ (forallb (fun e => Protocol.clean e.1 && Protocol.clean e.2) files = true ->
         ∀ old, control_text c w = Some old ->
                (records <$> control_text c w')
                = Some (map Protocol.upsert_record files)).
Proof.
  intros Hacc text. split; [apply commandString_unlines |].
  destruct (accepting_state _ _ Hacc) as [st Hst].
  exists (after_one_shot c (echo_to text ">") st w).
  assert (Sh.literal text = true ->
          ∀ old, control_text c w = Some old ->
                 control_text c (after_one_shot c (echo_to text ">") st w)
                 = Some (text +:+ str newline)) as Htext.
  { intros Hl old Hold.
    apply (control_text_after _ _ _ _ Sh.Overwrite text old Hst Hold).
    apply parse_overwrite; [done |]. apply option_like_unlines_upsert. }
  split; [| split; [| split; [| split]]].
  - rewrite upsertFiles_one_shot, commandString_unlines. by apply one_shot_served.
  - by apply history_after.
  - apply calls_after.
  - exact Htext.
  - intros Hclean old Hold.
    destruct (clean_upsert_records files Hclean) as (Hl & Hn & He).
    rewrite (Htext (literal_unlines _ Hl) old Hold). simpl. f_equal.
    unfold text. by apply records_unlines.
Qed.

Lemma upsertFiles_one_overwriting_invocation_witness :
  let files := [("a.txt", "hi"); ("b.txt", "yo")] in
  let text := Protocol.unlines (map Protocol.upsert_record files) in
  commandString files = text
  ∧ ∃ w', upsertFiles 0 files (startProgram 0 Sample.running).2 = (Fulfilled tt, w')
      ∧ history 0 w'
        = history 0 (startProgram 0 Sample.running).2
            ++ [["sh"; "-c"; echo_to text ">"]]
      ∧ control_text 0 w' = Some (text +:+ str newline)
      ∧ (records <$> control_text 0 w') = Some ["upsert a.txt hi"; "upsert b.txt yo"].
Proof.
  destruct (upsertFiles_one_overwriting_invocation 0
              [("a.txt", "hi"); ("b.txt", "yo")] (startProgram 0 Sample.running).2)
    as (Hencoded & w' & Hserved & Hhistory & _ & Htext & Hrecords).
  { split; [| split; intros; reflexivity].
    eexists. split; reflexivity. }
  split; [exact Hencoded |].
  exists w'. split; [exact Hserved |]. split; [exact Hhistory |]. split.
  - exact (Htext eq_refl ("run" +:+ str newline) eq_refl).
  - exact (Hrecords eq_refl ("run" +:+ str newline) eq_refl).
Defined.

(** Claim C10: [upsertFiles] with no entry is served like any other: the
    command string is empty, one shell invocation still reaches the
    sandbox, and the control file afterwards holds a lone newline, so that
    none of the records it held remains. *)
Theorem upsertFiles_empty_erases (c : Container) (w : World) (old : string) :
  accepting c w ->
  control_text c w = Some old ->
  commandString [] = EmptyString
  ∧ ∃ w', upsertFiles c [] w = (Fulfilled tt, w')
      ∧ history c w' = history c w ++ [["sh"; "-c"; echo_to EmptyString ">"]]
      ∧ calls (docker w')
        = calls (docker w)
            ++ [ExecCreate c (sh_c (echo_to EmptyString ">"));
                ExecStart (length (execs (docker w))) {| Detach := false |}]
      ∧ control_text c w' = Some (str newline)
      ∧ (records <$> control_text c w') = Some [].
Proof.
  intros Hacc Hold. split; [done |].
  destruct (accepting_state _ _ Hacc) as [st Hst].
  exists (after_one_shot c (echo_to EmptyString ">") st w).
  assert (control_text c (after_one_shot c (echo_to EmptyString ">") st w)
          = Some (str newline)) as Htext.
  { by apply (control_text_after _ _ _ _ Sh.Overwrite EmptyString old Hst Hold). }
  split; [| split; [| split; [| split]]].
  - rewrite upsertFiles_one_shot. by apply one_shot_served.
  - by apply history_after.
  - apply calls_after.
  - done.
  - by rewrite Htext.
Qed.

Lemma upsertFiles_empty_erases_witness :
  let w := (issue_all 0 [Run; Input "42"] Sample.running).2 in
  (records <$> control_text 0 w) = Some ["run"; "input 42"]
  ∧ commandString [] = EmptyString
  ∧ ∃ w', upsertFiles 0 [] w = (Fulfilled tt, w')
      ∧ history 0 w' = history 0 w ++ [["sh"; "-c"; echo_to EmptyString ">"]]
      ∧ calls (docker w')
        = calls (docker w)
            ++ [ExecCreate 0 (sh_c (echo_to EmptyString ">"));
                ExecStart (length (execs (docker w))) {| Detach := false |}]
      ∧ control_text 0 w' = Some (str newline)
      ∧ (records <$> control_text 0 w') = Some [].
Proof.
  split; [reflexivity |].
  apply (upsertFiles_empty_erases 0 (issue_all 0 [Run; Input "42"] Sample.running).2
           ("run" +:+ str newline +:+ "input 42" +:+ str newline)).
  - split; [| split; intros; reflexivity].
    eexists. split; reflexivity.
  - reflexivity.
Defined.

(** Claim C8, refuted as stated: an input text with a line break adds two
    records to the control file, the second of them a [run]. *)
Lemma sendInput_with_line_break_is_two_records :
  let w := (sendInput 0 ("a" +:+ str newline +:+ "run") Sample.running).2 in
  (records <$> control_text 0 Sample.running) = Some []
  ∧ (records <$> control_text 0 w) = Some ["input a"; "run"].
Proof. vm_compute. done. Qed.

(** Claim C8, amended: for every input text that is a single line without a
    double quote, dollar sign, backtick or backslash, [sendInput] is one
    shell invocation after which the control file holds what it held
    before followed by [input <text>] and a newline; when what it held
    ended a line, its records are the earlier records, unchanged, followed
    by the one record [input <text>]. *)
Theorem sendInput_appends_one_record
    (c : Container) (text : string) (w : World) (old : string) :
  accepting c w ->
  control_text c w = Some old ->
  Protocol.clean text = true ->
  ∃ w', sendInput c text w = (Fulfilled tt, w')
      ∧ history c w'
        = history c w ++ [["sh"; "-c"; echo_to (Protocol.input_record text) ">>"]]
      ∧ control_text c w' = Some (old +:+ Protocol.input_record text +:+ str newline)
      ∧ (terminated old = true ->
         (records <$> control_text c w')
         = Some (records old ++ [Protocol.input_record text])).
Proof.
  intros Hacc Hold Hclean.
  destruct (accepting_state _ _ Hacc) as [st Hst].
  destruct (clean_input_record text Hclean) as (Hl & Hn & He & Ho).
  exists (after_one_shot c (echo_to (Protocol.input_record text) ">>") st w).
  assert (control_text c
            (after_one_shot c (echo_to (Protocol.input_record text) ">>") st w)
          = Some (old +:+ Protocol.input_record text +:+ str newline)) as Htext.
  { apply (control_text_after _ _ _ _ Sh.Append _ old Hst Hold).
    by apply parse_append. }
  split; [| split; [| split]].
  - rewrite sendInput_one_shot. by apply one_shot_served.
  - by apply history_after.
  - done.
  - intros Hterm. rewrite Htext. simpl.
    by rewrite (records_after_terminated _ _ Hterm), records_line.
Qed.

Lemma sendInput_appends_one_record_witness :
  let w := (startProgram 0 Sample.running).2 in
  let old := "run" +:+ str newline in
  ∃ w', sendInput 0 "42" w = (Fulfilled tt, w')
      ∧ history 0 w'
        = history 0 w ++ [["sh"; "-c"; echo_to (Protocol.input_record "42") ">>"]]
      ∧ control_text 0 w' = Some (old +:+ Protocol.input_record "42" +:+ str newline)
      ∧ (terminated old = true ->
         (records <$> control_text 0 w')
         = Some (records old ++ [Protocol.input_record "42"])).
Proof.
  apply (sendInput_appends_one_record 0 "42" (startProgram 0 Sample.running).2
           ("run" +:+ str newline)).
  - split; [| split; intros; reflexivity].
    eexists. split; reflexivity.
  - reflexivity.
  - reflexivity.
Defined.

(** Claim C2, refuted as stated: an input text with a double quote in it is
    not refused and not escaped.  The call fulfils, the shell line reaches
    the sandbox with the text as given, and the quoted word of that line
    ends at the quote of the text: what follows it in the text is read by
    the shell as a second command. *)
Lemma sendInput_quote_ends_the_word :
  let payload := "x" +:+ str dquote +:+ "; echo " +:+ str dquote +:+ "run" in
  let line := "echo " +:+ str dquote +:+ "input " +:+ payload +:+ str dquote
              +:+ " >> /commandListener/commands.txt" in
  (sendInput 0 payload Sample.running).1 = Fulfilled tt
  ∧ history 0 (sendInput 0 payload Sample.running).2 = [["sh"; "-c"; line]]
  ∧ Sh.quoted_word line
    = Some ("input x",
            "; echo " +:+ str dquote +:+ "run" +:+ str dquote
            +:+ " >> /commandListener/commands.txt")
  ∧ control_text 0 (sendInput 0 payload Sample.running).2 = None.
Proof. vm_compute. done. Qed.

(** Claim C2, amended: the encoder places file names, file contents and
    input texts between the double quotes of the shell line exactly as
    given, refuses none of them, and always hands the line to the sandbox;
    the quoted word of the line is the payload, followed by the
    redirection alone, whenever the payload has no double quote, dollar
    sign, backtick or backslash. *)
Theorem payloads_embedded_as_given (c : Container) (w : World) :
  accepting c w ->
  (∀ files, ∃ w',
      upsertFiles c files w = (Fulfilled tt, w')
      ∧ history c w'
        = history c w
            ++ [["sh"; "-c";
                 "echo " +:+ str dquote +:+ commandString files +:+ str dquote
                 +:+ " > /commandListener/commands.txt"]])
  ∧ (∀ input, ∃ w',
      sendInput c input w = (Fulfilled tt, w')
      ∧ history c w'
        = history c w
            ++ [["sh"; "-c";
                 "echo " +:+ str dquote +:+ ("input " +:+ input) +:+ str dquote
                 +:+ " >> /commandListener/commands.txt"]])
  ∧ (∀ text redirect,
      Sh.literal text = true ->
      Sh.quoted_word (echo_to text redirect)
      = Some (text, " " +:+ redirect +:+ " " +:+ control_file)).
Proof.
  intros Hacc. destruct (accepting_state _ _ Hacc) as [st Hst].
  split; [| split].
  - intros files. eexists. split.
    + rewrite upsertFiles_one_shot. by apply one_shot_served.
    + by rewrite (history_after _ _ _ _ Hst).
  - intros input. eexists. split.
    + rewrite sendInput_one_shot. by apply one_shot_served.
    + by rewrite (history_after _ _ _ _ Hst).
  - intros text redirect. apply quoted_word_echo_to.
Qed.

Lemma payloads_embedded_as_given_witness :
  (∀ files, ∃ w',
      upsertFiles 0 files Sample.running = (Fulfilled tt, w')
      ∧ history 0 w'
        = history 0 Sample.running
            ++ [["sh"; "-c";
                 "echo " +:+ str dquote +:+ commandString files +:+ str dquote
                 +:+ " > /commandListener/commands.txt"]])
  ∧ (∀ input, ∃ w',
      sendInput 0 input Sample.running = (Fulfilled tt, w')
      ∧ history 0 w'
        = history 0 Sample.running
            ++ [["sh"; "-c";
                 "echo " +:+ str dquote +:+ ("input " +:+ input) +:+ str dquote
                 +:+ " >> /commandListener/commands.txt"]])
  ∧ (∀ text redirect,
      Sh.literal text = true ->
      Sh.quoted_word (echo_to text redirect)
      = Some (text, " " +:+ redirect +:+ " " +:+ control_file)).
Proof.
  apply (payloads_embedded_as_given 0 Sample.running).
  exact sample_running_accepting.
Defined.

(** ** What a one-shot command can change *)

Section Frames.

(** Whatever its outcome, a one-shot command changes the engine alone, and
    in it at most the state of its own container. *)
Lemma one_shot_world c line w :
  ∃ g, (one_shot c line w).2 = set_docker g w
       ∧ fault g = fault (docker w)
       ∧ (containers g = containers (docker w)
          ∨ ∃ st, containers (docker w) !! c = Some st
                  ∧ c_running st = true
                  ∧ containers g
                    = <[c := mkContainerState (c_opts st) (c_running st)
                              (c_files st ≫= Sh.run (argv_of line))
                              (c_history st ++ [argv_of line])]>
                        (containers (docker w))).
Proof.
  unfold one_shot, bind, engine, Docker.exec, Docker.request. simpl.
  destruct (fault (docker w) (ExecCreate c (sh_c line))) as [e|].
  { eexists. split; [reflexivity |]. split; [done | by left]. }
  simpl. destruct (containers (docker w) !! c) as [st|] eqn:Hst.
  2:{ eexists. split; [reflexivity |]. split; [done | by left]. }
  destruct (c_running st) eqn:Hrun.
  2:{ eexists. split; [reflexivity |]. split; [done | by left]. }
  simpl. unfold Docker.exec_start, Docker.request. simpl.
  destruct (fault (docker w) (ExecStart (length (execs (docker w))) {| Detach := false |}))
    as [e|].
  { eexists. split; [reflexivity |]. split; [done | by left]. }
  simpl. rewrite list_lookup_middle by done. simpl. rewrite Hst.
  eexists. split; [reflexivity |]. split; [done |].
  right. exists st. by rewrite Hrun.
Qed.

Lemma issue_one_shot c cmd : ∃ line, issue c cmd = one_shot c line.
Proof. destruct cmd; eexists; reflexivity. Qed.

Lemma issue_world c cmd w :
  ∃ g, (issue c cmd w).2 = set_docker g w
       ∧ fault g = fault (docker w)
       ∧ (containers g = containers (docker w)
          ∨ ∃ st st', containers (docker w) !! c = Some st
                      ∧ c_running st' = c_running st
                      ∧ c_opts st' = c_opts st
                      ∧ containers g = <[c := st']> (containers (docker w))).
Proof.
  destruct (issue_one_shot c cmd) as [line ->].
  destruct (one_shot_world c line w) as (g & Hw & Hfault & Hcs).
  exists g. split; [done |]. split; [done |].
  destruct Hcs as [Hsame | (st & Hst & _ & Hins)]; [by left |].
  right.
  exists st, (mkContainerState (c_opts st) (c_running st)
                (c_files st ≫= Sh.run (argv_of line))
                (c_history st ++ [argv_of line])).
  by rewrite Hins.
Qed.

(** A started session: what [startPythonSession] leaves in each of its
    three courses. *)
Lemma startPythonSession_world w :
  let sessionId := uuid_source w (uuid_drawn w) in
  let tempDir := join [dirname w; "temp"; sessionId] in
  let w1 := set_host_dirs (host_dirs w ++ [tempDir])
              (set_uuid_drawn (S (uuid_drawn w)) w) in
  let opts := session_options (pythonImage w) (runtime w) in
  let c := length (containers (docker w)) in
  let created running :=
    mkEngine (containers (docker w) ++ [mkContainerState opts running (Some ∅) []])
      (execs (docker w))
      (calls (docker w) ++ [CreateContainer opts; StartContainer c])
      (fault (docker w)) in
  startPythonSession w
  = match fault (docker w) (CreateContainer opts),
          fault (docker w) (StartContainer c) with
    | Some e, _ =>
        (Rejected e, set_docker (Docker.log (CreateContainer opts) (docker w)) w1)
    | None, Some e => (Rejected e, set_docker (created false) w1)
    | None, None =>
        (Fulfilled sessionId,
         set_console
           (console w ++ ["Registering container for session: " +:+ sessionId])
           (set_sessionContainers (<[sessionId := c]> (sessionContainers w))
              (set_docker (created true) w1)))
    end.
Proof.
  intros sessionId tempDir w1 opts c created.
  cbv beta iota zeta delta [startPythonSession bind uuidv4 this mkdirSync modify].
  change (startInteractiveSession _ _ _)
    with (startInteractiveSession (pythonImage w) tempDir w1).
  change (fault (docker w) (CreateContainer opts))
    with (fault (docker w1) (CreateContainer (session_options (pythonImage w) (runtime w1)))).
  change (fault (docker w) (StartContainer c))
    with (fault (docker w1) (StartContainer (length (containers (docker w1))))).
  destruct (fault (docker w1)
              (CreateContainer (session_options (pythonImage w) (runtime w1))))
    as [e|] eqn:Hcreate.
  - by rewrite (startInteractiveSession_create_refused _ _ _ _ Hcreate).
  - destruct (fault (docker w1) (StartContainer (length (containers (docker w1)))))
      as [e|] eqn:Hstart.
    + by rewrite (startInteractiveSession_start_refused _ _ _ _ Hcreate Hstart).
    + by rewrite (startInteractiveSession_started _ _ _ Hcreate Hstart).
Qed.

End Frames.

(** X1.  A command sent to one container leaves every other container as
    it was -- its files, its history, its state -- whatever the payload
    and whether or not the command is served. *)
Theorem issue_leaves_other_containers
    (c c' : Container) (cmd : Command) (w : World) :
  c' ≠ c ->
  container_state c' (issue c cmd w).2 = container_state c' w.
Proof.
  intros Hne. destruct (issue_world c cmd w) as (g & -> & _ & Hcs).
  unfold container_state. simpl.
  destruct Hcs as [-> | (st & st' & _ & _ & _ & ->)]; [done |].
  by apply list_lookup_insert_ne.
Qed.

Lemma issue_leaves_other_containers_witness :
  container_state 1
    (issue 0 (Upsert [("main.py", "cHJpbnQoMSk=")]) Scenario.two_sessions).2
  = container_state 1 Scenario.two_sessions.
Proof.
  apply (issue_leaves_other_containers 0 1
           (Upsert [("main.py", "cHJpbnQoMSk=")]) Scenario.two_sessions).
  discriminate.
Defined.

(** X2.  The three delivery methods never touch the table of sessions,
    the console, the host's directories or the source of ids, and they
    create, start and stop no container: the containers are as many as
    before, each with the options and the running state it had. *)
Theorem issue_changes_container_contents_only
    (c : Container) (cmd : Command) (w : World) :
  let w' := (issue c cmd w).2 in
  sessionContainers w' = sessionContainers w
  ∧ console w' = console w
  ∧ host_dirs w' = host_dirs w
  ∧ uuid_drawn w' = uuid_drawn w
  ∧ length (containers (docker w')) = length (containers (docker w))
  ∧ c_running <$> containers (docker w') = c_running <$> containers (docker w)
  ∧ c_opts <$> containers (docker w') = c_opts <$> containers (docker w).
Proof.
  destruct (issue_world c cmd w) as (g & Hw & _ & Hcs).
  cbv zeta. rewrite Hw. simpl. do 4 (split; [done |]).
  destruct Hcs as [-> | (st & st' & Hst & Hrun & Hopts & ->)]; [done |].
  rewrite length_insert, !list_fmap_insert, Hrun, Hopts.
  unfold Container in Hst.
  rewrite !list_insert_id by (by rewrite list_lookup_fmap, Hst).
  done.
Qed.

(** ** Sessions *)

(** X3.  When the daemon serves the creation and the start of the
    sandbox, [startPythonSession] returns the id it drew, binds it to the
    new container and to nothing else, and leaves that container running
    with the session's options, no file written and no command run; the
    directory of the session is created on the host, and resolving the id
    gives the container. *)
Theorem startPythonSession_registers (w : World) :
  let sessionId := uuid_source w (uuid_drawn w) in
  let c := length (containers (docker w)) in
  fault (docker w) (CreateContainer (session_options (pythonImage w) (runtime w))) = None ->
  fault (docker w) (StartContainer c) = None ->
  ∃ w', startPythonSession w = (Fulfilled sessionId, w')
        ∧ sessionContainers w' = <[sessionId := c]> (sessionContainers w)
        ∧ (getContainer sessionId w').1 = Fulfilled (Some c)
        ∧ container_state c w'
          = Some (mkContainerState (session_options (pythonImage w) (runtime w))
                    true (Some ∅) [])
        ∧ host_dirs w' = host_dirs w ++ [join [dirname w; "temp"; sessionId]]
        ∧ uuid_drawn w' = S (uuid_drawn w).
Proof.
  intros sessionId c Hcreate Hstart.
  pose proof (startPythonSession_world w) as Hworld. cbv zeta in Hworld.
  fold c in Hworld. rewrite Hcreate, Hstart in Hworld.
  eexists. split; [exact Hworld |].
  split; [done |]. split.
  - rewrite getContainer_lookup. simpl. by rewrite lookup_insert_eq.
  - split; [| done]. unfold container_state. simpl. by apply list_lookup_middle.
Qed.

Lemma startPythonSession_registers_witness :
  ∃ w', startPythonSession Sample.fresh = (Fulfilled "session-0", w')
        ∧ sessionContainers w' = <[ "session-0" := 0 ]> (sessionContainers Sample.fresh)
        ∧ (getContainer "session-0" w').1 = Fulfilled (Some 0)
        ∧ container_state 0 w'
          = Some (mkContainerState (session_options "python-interactive" "runc")
                    true (Some ∅) [])
        ∧ host_dirs w' = [ "/app/temp/session-0" ]
        ∧ uuid_drawn w' = 1.
Proof.
  apply (startPythonSession_registers Sample.fresh); reflexivity.
Defined.



(** X5.  The image and the runtime the service was configured with are
    the ones it asks the engine for: the first request of a session on a
    new service is to create a container whose image is the value of
    [DOCKER_IMAGE_PYTHON] and whose runtime is the value of
    [DOCKER_RUNTIME], a variable that is unset or empty giving
    [python-interactive] and [runc]. *)
Theorem configuration_reaches_engine
    (env : gmap string string) (g : Engine) (ids : nat -> string) (dir : string) :
  ∃ opts rest,
    calls (docker (startPythonSession (new_ExecutionWsService env g ids dir)).2)
    = calls g ++ CreateContainer opts :: rest
    ∧ (∀ v, env !! "DOCKER_IMAGE_PYTHON" = Some v -> v ≠ EmptyString -> Image opts = v)
    ∧ (env !! "DOCKER_IMAGE_PYTHON" = None
       ∨ env !! "DOCKER_IMAGE_PYTHON" = Some EmptyString ->
       Image opts = "python-interactive")
    ∧ (∀ v, env !! "DOCKER_RUNTIME" = Some v -> v ≠ EmptyString ->
            Runtime (HostConfig_ opts) = v)
    ∧ (env !! "DOCKER_RUNTIME" = None ∨ env !! "DOCKER_RUNTIME" = Some EmptyString ->
       Runtime (HostConfig_ opts) = "runc").
Proof.
  set (w := new_ExecutionWsService env g ids dir).
  set (image := env_or env "DOCKER_IMAGE_PYTHON" "python-interactive").
  set (rt := env_or env "DOCKER_RUNTIME" "runc").
  assert (∃ rest, calls (docker (startPythonSession w).2)
                  = calls g ++ CreateContainer (session_options image rt) :: rest)
    as [rest Hcalls].
  { pose proof (startPythonSession_world w) as Hworld. cbv zeta in Hworld.
    rewrite Hworld.
    change (session_options (pythonImage w) (runtime w))
      with (session_options image rt).
    change (docker w) with g.
    destruct (fault g (CreateContainer (session_options image rt))).
    - by exists [].
    - destruct (fault g (StartContainer (length (containers g))));
        by exists [StartContainer (length (containers g))]. }
  exists (session_options image rt), rest. split; [exact Hcalls |].
  simpl. unfold image, rt, env_or. repeat split.
  - intros v -> Hv. by destruct v.
  - by intros [-> | ->].
  - intros v -> Hv. by destruct v.
  - by intros [-> | ->].
Qed.

Section Sessions.

Lemma register_all_app regs1 regs2 w :
  (register_all (regs1 ++ regs2) w).2 = (register_all regs2 (register_all regs1 w).2).2.
Proof.
  revert w. induction regs1 as [|[id c] regs1 IH]; intros w; [done |].
  simpl. unfold bind. rewrite registerContainer_world. apply IH.
Qed.

(** A served [startPythonSession], by what it leaves. *)
Lemma startPythonSession_served w :
  provisioning w ->
  ∃ w1, startPythonSession w = (Fulfilled (uuid_source w (uuid_drawn w)), w1)
        ∧ sessionContainers w1
          = <[uuid_source w (uuid_drawn w) := length (containers (docker w))]>
              (sessionContainers w)
        ∧ containers (docker w1)
          = containers (docker w)
              ++ [mkContainerState (session_options (pythonImage w) (runtime w))
                    true (Some ∅) []]
        ∧ fault (docker w1) = fault (docker w)
        ∧ uuid_source w1 = uuid_source w
        ∧ uuid_drawn w1 = S (uuid_drawn w).
Proof.
  intros [Hcreate Hstart].
  pose proof (startPythonSession_world w) as Hworld. cbv zeta in Hworld.
  rewrite Hcreate, Hstart in Hworld.
  eexists. split; [exact Hworld |]. done.
Qed.

Lemma start_sessions_served n : ∀ w,
  provisioning w ->
  (∀ i j, i < n -> j < n ->
          uuid_source w (uuid_drawn w + i) = uuid_source w (uuid_drawn w + j) -> i = j) ->
  ∃ w', start_sessions n w
        = (Fulfilled ((λ i, uuid_source w (uuid_drawn w + i)) <$> seq 0 n), w')
        ∧ (∀ sessionId, (∀ i, i < n -> sessionId ≠ uuid_source w (uuid_drawn w + i)) ->
                        sessionContainers w' !! sessionId = sessionContainers w !! sessionId)
        ∧ (∀ c st, container_state c w = Some st -> container_state c w' = Some st)
        ∧ (∀ i, i < n ->
                sessionContainers w' !! uuid_source w (uuid_drawn w + i)
                = Some (length (containers (docker w)) + i)
                ∧ ∃ st, container_state (length (containers (docker w)) + i) w' = Some st
                        ∧ c_running st = true).
Proof.
  induction n as [|n IH]; intros w Hprov Hinj.
  - exists w. repeat split; try done; intros; lia.
  - destruct (startPythonSession_served w Hprov)
      as (w1 & Hstart & Htable & Hcs & Hfault & Hsource & Hdrawn).
    destruct (IH w1) as (w' & Hrest & Hothers & Hkept & Hnew).
    { destruct Hprov as [Hc Hs]. split; intros; rewrite Hfault; [apply Hc | apply Hs]. }
    { intros i j Hi Hj. rewrite Hsource, Hdrawn.
      replace (S (uuid_drawn w) + i) with (uuid_drawn w + S i) by lia.
      replace (S (uuid_drawn w) + j) with (uuid_drawn w + S j) by lia.
      intros Heq. apply Hinj in Heq; lia. }
    exists w'. split; [| split; [| split]].
    + simpl. unfold bind. rewrite Hstart, Hrest. unfold ret.
      rewrite Nat.add_0_r. do 3 f_equal.
      rewrite <- fmap_S_seq, <- list_fmap_compose.
      apply list_fmap_ext. intros _ i _. simpl. rewrite Hsource, Hdrawn.
      f_equal. lia.
    + intros sessionId Hfresh. rewrite Hothers.
      * rewrite Htable. apply lookup_insert_ne. intros Heq.
        apply (Hfresh 0); [lia |]. by rewrite Nat.add_0_r.
      * intros i Hi. rewrite Hsource, Hdrawn.
        replace (S (uuid_drawn w) + i) with (uuid_drawn w + S i) by lia.
        apply Hfresh. lia.
    + intros c st Hst. apply Hkept. unfold container_state in *.
      rewrite Hcs. by apply lookup_app_l_Some.
    + intros [|i] Hi.
      * rewrite !Nat.add_0_r. split.
        -- rewrite Hothers.
           ++ rewrite Htable. apply lookup_insert_eq.
           ++ intros i Hi'. rewrite Hsource, Hdrawn.
              replace (S (uuid_drawn w) + i) with (uuid_drawn w + S i) by lia.
              intros Heq. rewrite <- (Nat.add_0_r (uuid_drawn w)) in Heq at 1.
              apply Hinj in Heq; lia.
        -- eexists. split.
           ++ apply Hkept. unfold container_state. rewrite Hcs.
              by apply list_lookup_middle.
           ++ reflexivity.
      * destruct (Hnew i) as [Hbound Hruns]; [lia |].
        rewrite Hsource, Hdrawn in Hbound.
        rewrite Hcs, length_app in Hbound, Hruns. simpl in Hbound, Hruns.
        replace (length (containers (docker w)) + 1 + i)
          with (length (containers (docker w)) + S i) in Hbound, Hruns by lia.
        replace (uuid_drawn w + S i) with (S (uuid_drawn w + i)) by lia.
        done.
Qed.

End Sessions.

(** X6.  Sessions started one after the other on a daemon that serves
    them, with ids that do not repeat, get one container each: the i-th
    session's id resolves to the i-th new container, which runs, and no
    later session takes it over. *)
Theorem start_sessions_one_container_each (n : nat) (w : World) :
  provisioning w ->
  (∀ i j, i < n -> j < n ->
          uuid_source w (uuid_drawn w + i) = uuid_source w (uuid_drawn w + j) -> i = j) ->
  ∃ w', start_sessions n w
        = (Fulfilled ((λ i, uuid_source w (uuid_drawn w + i)) <$> seq 0 n), w')
        ∧ ∀ i, i < n ->
               (getContainer (uuid_source w (uuid_drawn w + i)) w').1
               = Fulfilled (Some (length (containers (docker w)) + i))
               ∧ ∃ st, container_state (length (containers (docker w)) + i) w' = Some st
                       ∧ c_running st = true.
Proof.
  intros Hprov Hinj.
  destruct (start_sessions_served n w Hprov Hinj) as (w' & Hrun & _ & _ & Hnew).
  exists w'. split; [done |].
  intros i Hi. destruct (Hnew i Hi) as [Hbound Hruns].
  split; [| done]. rewrite getContainer_lookup. f_equal. exact Hbound.
Qed.

Lemma start_sessions_one_container_each_witness :
  ∃ w', start_sessions 2 Sample.fresh = (Fulfilled ["session-0"; "session-1"], w')
        ∧ ∀ i, i < 2 ->
               (getContainer (Sample.ids (0 + i)) w').1 = Fulfilled (Some (0 + i))
               ∧ ∃ st, container_state (0 + i) w' = Some st ∧ c_running st = true.
Proof.
  apply (start_sessions_one_container_each 2 Sample.fresh).
  - split; intros; reflexivity.
  - intros [|[|i]] [|[|j]] Hi Hj Heq; try lia; discriminate Heq.
Defined.

(** X7.  In a run of registrations the last one made for an id is the
    one that counts: whatever was registered before it, under that id or
    another, resolving the id gives the sandbox registered last. *)
Theorem register_all_last_wins
    (before after : list (string * Container)) (sessionId : string)
    (container : Container) (w : World) :
  sessionId ∉ after.*1 ->
  (getContainer sessionId
     (register_all (before ++ (sessionId, container) :: after) w).2).1
  = Fulfilled (Some container).
Proof.
  intros Hnotin.
  rewrite getContainer_lookup, register_all_app.
  change (register_all ((sessionId, container) :: after))
    with (λ w0, bind (registerContainer sessionId container)
                  (λ _, register_all after) w0).
  cbv beta. unfold bind at 1. rewrite registerContainer_world.
  rewrite (register_all_unbound _ _ _ Hnotin). simpl. f_equal. apply lookup_insert_eq.
Qed.

Lemma register_all_last_wins_witness :
  (getContainer "a"
     (register_all ([("a", 0); ("b", 1)] ++ ("a", 2) :: [("b", 3)]) Sample.fresh).2).1
  = Fulfilled (Some 2).
Proof.
  apply (register_all_last_wins [("a", 0); ("b", 1)] [("b", 3)] "a" 2 Sample.fresh).
  intros H. apply elem_of_cons in H as [H | H]; [discriminate H |].
  by apply elem_of_nil in H.
Defined.

Section Soundness.

Lemma issue_sound c cmd w : registry_sound w -> registry_sound (issue c cmd w).2.
Proof.
  intros Hsound id c0 Hid.
  destruct (issue_world c cmd w) as (g & Hw & _ & Hcs). rewrite Hw in *. simpl in Hid.
  destruct (Hsound id c0 Hid) as (st0 & Hst0 & Hrun0).
  unfold container_state in *. simpl.
  destruct Hcs as [-> | (st & st' & Hst & Hrun & _ & ->)]; [by exists st0 |].
  destruct (decide (c0 = c)) as [-> | Hne].
  - exists st'. split.
    + apply list_lookup_insert_eq. by eapply lookup_lt_Some.
    + unfold Container in *. rewrite Hst in Hst0. injection Hst0 as <-. congruence.
  - exists st0. split; [| done]. by rewrite list_lookup_insert_ne.
Qed.

Lemma perform_sound w call : registry_sound w -> registry_sound (perform w call).
Proof.
  intros Hsound. destruct call as [| sessionId | c | c files | c input].
  - unfold perform. pose proof (startPythonSession_world w) as Hworld.
    cbv zeta in Hworld. rewrite Hworld. clear Hworld.
    destruct (fault (docker w) (CreateContainer _)) as [e|].
    { intros id c Hid. exact (Hsound id c Hid). }
    destruct (fault (docker w) (StartContainer _)) as [e|].
    + intros id c Hid. destruct (Hsound id c Hid) as (st & Hst & Hrun).
      exists st. split; [| done]. unfold container_state in *. simpl.
      by apply lookup_app_l_Some.
    + intros id c Hid. simpl in Hid.
      destruct (decide (uuid_source w (uuid_drawn w) = id)) as [<- | Hne].
      * rewrite lookup_insert_eq in Hid. injection Hid as <-.
        eexists. split.
        -- unfold container_state. simpl. by apply list_lookup_middle.
        -- reflexivity.
      * rewrite lookup_insert_ne in Hid by done.
        destruct (Hsound id c Hid) as (st & Hst & Hrun).
        exists st. split; [| done]. unfold container_state in *. simpl.
        by apply lookup_app_l_Some.
  - intros id c Hid. exact (Hsound id c Hid).
  - exact (issue_sound c Run w Hsound).
  - exact (issue_sound c (Upsert files) w Hsound).
  - exact (issue_sound c (Input input) w Hsound).
Qed.

End Soundness.

(** X8.  As long as sandboxes are registered by [startPythonSession]
    alone, every session of the table leads to a container that exists
    and runs, whatever requests are made and whether they are served or
    rejected: no request leaves a session bound to a missing or stopped
    container. *)
Theorem registry_stays_sound (calls : list Call) (w : World) :
  registry_sound w -> registry_sound (perform_all calls w).
Proof.
  revert w. induction calls as [|call calls IH]; intros w Hsound; [done |].
  apply IH. by apply perform_sound.
Qed.

Lemma registry_stays_sound_witness :
  registry_sound Sample.fresh
  ∧ registry_sound
      (perform_all
         [CallStartSession; CallUpsertFiles 0 [("main.py", "cHJpbnQoMSk=")];
          CallStartSession; CallSendInput 7 "42"; CallStartProgram 1;
          CallGetContainer "session-0"]
         Sample.fresh).
Proof.
  assert (registry_sound Sample.fresh) as Hfresh.
  { intros sessionId c Hbound. simpl in Hbound. by rewrite lookup_empty in Hbound. }
  split; [exact Hfresh |].
  exact (registry_stays_sound
           [CallStartSession; CallUpsertFiles 0 [("main.py", "cHJpbnQoMSk=")];
            CallStartSession; CallSendInput 7 "42"; CallStartProgram 1;
            CallGetContainer "session-0"]
           Sample.fresh Hfresh).
Defined.

(** ** The control file over a session *)

Section ControlFile.

Import Protocol.

Lemma terminated_newline s : terminated (s +:+ str newline) = true.
Proof.
  induction s as [|c s IH]; [done |].
  rewrite append_cons. destruct s as [|c' s']; [done |].
  rewrite append_cons in *. exact IH.
Qed.

Lemma parse_run :
  Sh.parse (echo_to "run" ">") = Some (Sh.Overwrite, control_file, "run").
Proof. reflexivity. Qed.

(** One clean command, by what it leaves in the control file. *)
Lemma issue_file c cmd w st old :
  container_state c w = Some st ->
  accepting c w ->
  control_text c w = Some old ->
  terminated old = true ->
  clean_command cmd = true ->
  ∃ line new,
    issue c cmd w = (Fulfilled tt, after_one_shot c line st w)
    ∧ control_text c (after_one_shot c line st w) = Some new
    ∧ terminated new = true
    ∧ records new = file_after (records old) cmd.
Proof.
  intros Hst Hacc Hold Hterm Hclean.
  destruct cmd as [files | | text]; simpl in Hclean; cbn [issue file_after].
  - destruct (clean_upsert_records files Hclean) as (Hl & Hn & He).
    exists (echo_to (commandString files) ">"), (commandString files +:+ str newline).
    split; [| split; [| split]].
    + rewrite upsertFiles_one_shot. by apply one_shot_served.
    + apply (control_text_after _ _ _ _ Sh.Overwrite _ old Hst Hold).
      apply parse_upsert. rewrite commandString_unlines. by apply literal_unlines.
    + apply terminated_newline.
    + rewrite commandString_unlines. by apply records_unlines.
  - exists (echo_to "run" ">"), ("run" +:+ str newline).
    split; [| split; [| split]].
    + rewrite startProgram_one_shot. by apply one_shot_served.
    + exact (control_text_after _ _ _ _ Sh.Overwrite "run" old Hst Hold parse_run).
    + reflexivity.
    + reflexivity.
  - destruct (clean_input_record text Hclean) as (Hl & Hn & He & Ho).
    exists (echo_to (input_record text) ">>"),
      (old +:+ input_record text +:+ str newline).
    split; [| split; [| split]].
    + rewrite sendInput_one_shot. by apply one_shot_served.
    + apply (control_text_after _ _ _ _ Sh.Append _ old Hst Hold).
      by apply parse_append.
    + rewrite <- append_assoc. apply terminated_newline.
    + by rewrite (records_after_terminated _ _ Hterm), records_line.
Qed.

(** A run of clean commands, by the records it writes and by what it
    leaves in the control file. *)
Lemma issue_all_served c cmds : ∀ w old,
  accepting c w ->
  control_text c w = Some old ->
  terminated old = true ->
  forallb clean_command cmds = true ->
  ∃ w' new, issue_all c cmds w = (Fulfilled tt, w')
            ∧ delivered c w' = delivered c w ++ flat_map records_of cmds
            ∧ control_text c w' = Some new
            ∧ terminated new = true
            ∧ records new = fold_left file_after cmds (records old).
Proof.
  induction cmds as [|cmd cmds IH]; intros w old Hacc Hold Hterm Hclean.
  - exists w, old. simpl. by rewrite app_nil_r.
  - simpl in Hclean. apply andb_true_iff in Hclean as [Hcmd Hrest].
    destruct (accepting_state _ _ Hacc) as [st Hst].
    destruct (issue_file c cmd w st old Hst Hacc Hold Hterm Hcmd)
      as (line & mid & Hissue & Hmid & Htermmid & Hrecords).
    destruct (issue_served c cmd w st Hst Hacc Hcmd) as (line' & Hissue' & Hdeliv).
    assert (after_one_shot c line st w = after_one_shot c line' st w) as Hsame
      by congruence.
    destruct (IH (after_one_shot c line st w) mid
                (accepting_after _ _ _ _ Hst Hacc) Hmid Htermmid Hrest)
      as (w' & new & Hall & Hdelivered & Hnew & Htermnew & Hfinal).
    exists w', new. split; [| split; [| split; [done | split; [done |]]]].
    + simpl. unfold bind. by rewrite Hissue.
    + rewrite Hdelivered, Hsame, (delivered_after _ _ _ _ Hst), Hdeliv.
      simpl. by rewrite app_assoc.
    + simpl. by rewrite Hfinal, Hrecords.
Qed.

End ControlFile.

(** X9.  [startProgram] replaces what the control file holds: after it
    the file holds the one record [run], whatever it held before, so that
    an input sent earlier and not yet read is lost. *)
Theorem startProgram_replaces_control_file (c : Container) (w : World) (old : string) :
  accepting c w ->
  control_text c w = Some old ->
  ∃ w', startProgram c w = (Fulfilled tt, w')
        ∧ history c w' = history c w ++ [["sh"; "-c"; echo_to "run" ">"]]
        ∧ control_text c w' = Some ("run" +:+ str newline)
        ∧ (records <$> control_text c w') = Some ["run"].
Proof.
  intros Hacc Hold. destruct (accepting_state _ _ Hacc) as [st Hst].
  exists (after_one_shot c (echo_to "run" ">") st w).
  assert (control_text c (after_one_shot c (echo_to "run" ">") st w)
          = Some ("run" +:+ str newline)) as Htext.
  { exact (control_text_after _ _ _ _ Sh.Overwrite "run" old Hst Hold parse_run). }
  split; [| split; [| split]].
  - rewrite startProgram_one_shot. by apply one_shot_served.
  - by apply history_after.
  - done.
  - by rewrite Htext.
Qed.

Lemma startProgram_replaces_control_file_witness :
  (records <$> control_text 0 Scenario.busy) = Some ["run"; "input 42"]
  ∧ ∃ w', startProgram 0 Scenario.busy = (Fulfilled tt, w')
        ∧ history 0 w' = history 0 Scenario.busy ++ [["sh"; "-c"; echo_to "run" ">"]]
        ∧ control_text 0 w' = Some ("run" +:+ str newline)
        ∧ (records <$> control_text 0 w') = Some ["run"].
Proof.
  split; [reflexivity |].
  apply (startProgram_replaces_control_file 0 Scenario.busy
           ("run" +:+ str newline +:+ "input 42" +:+ str newline)).
  - split; [| split; intros; reflexivity].
    eexists. split; reflexivity.
  - reflexivity.
Defined.

(** X10.  What the control file holds after a run of clean commands is
    decided by the last [upsertFiles] or [startProgram] among them and the
    inputs sent since: each of those two replaces the records, each
    [sendInput] adds one at the end, and the file always ends a line. *)
Theorem control_file_after_commands
    (c : Container) (cmds : list Command) (w : World) (old : string) :
  accepting c w ->
  control_text c w = Some old ->
  terminated old = true ->
  forallb Protocol.clean_command cmds = true ->
  ∃ w' new, issue_all c cmds w = (Fulfilled tt, w')
            ∧ control_text c w' = Some new
            ∧ terminated new = true
            ∧ records new = fold_left file_after cmds (records old).
Proof.
  intros Hacc Hold Hterm Hclean.
  destruct (issue_all_served c cmds w old Hacc Hold Hterm Hclean)
    as (w' & new & Hall & _ & Hnew & Htermnew & Hfinal).
  by exists w', new.
Qed.

Lemma control_file_after_commands_witness :
  ∃ w' new,
    issue_all 0 [Input "1"; Upsert [("a.txt", "hi")]; Run; Input "2"; Input "3"]
      Sample.running
    = (Fulfilled tt, w')
    ∧ control_text 0 w' = Some new
    ∧ terminated new = true
    ∧ records new = ["run"; "input 2"; "input 3"].
Proof.
  apply (control_file_after_commands 0
           [Input "1"; Upsert [("a.txt", "hi")]; Run; Input "2"; Input "3"]
           Sample.running EmptyString).
  - exact sample_running_accepting.
  - reflexivity.
  - reflexivity.
  - reflexivity.
Defined.

(** ** Reading the records back *)

Section Decoding.

Import Protocol.

Lemma unlines_inj rs1 rs2 :
  Forall (fun r => no_newline r = true) rs1 ->
  Forall (fun r => no_newline r = true) rs2 ->
  unlines rs1 = unlines rs2 -> rs1 = rs2.
Proof.
  intros H1 H2 Heq.
  pose proof (split_lines_unlines rs1 EmptyString H1) as E1.
  pose proof (split_lines_unlines rs2 EmptyString H2) as E2.
  rewrite append_empty_r in E1, E2. rewrite Heq, E2 in E1.
  by apply app_inv_tail in E1.
Qed.

Lemma name_content_inj f1 c1 f2 c2 :
  no_space f1 = true -> no_space f2 = true ->
  f1 +:+ " " +:+ c1 = f2 +:+ " " +:+ c2 -> f1 = f2 ∧ c1 = c2.
Proof.
  unfold no_space. revert f2.
  induction f1 as [|a f1 IH]; intros [|b f2] H1 H2 Heq;
    rewrite ?append_nil, ?append_cons in Heq; simpl in H1, H2.
  - by injection Heq.
  - injection Heq as <- _. by rewrite Ascii.eqb_refl in H2.
  - injection Heq as -> _. by rewrite Ascii.eqb_refl in H1.
  - injection Heq as -> Heq.
    apply andb_true_iff in H1 as [_ H1]. apply andb_true_iff in H2 as [_ H2].
    destruct (IH f2 H1 H2 Heq) as [-> ->]. done.
Qed.

Lemma upsert_records_inj files1 files2 :
  separable files1 = true -> separable files2 = true ->
  map upsert_record files1 = map upsert_record files2 -> files1 = files2.
Proof.
  unfold separable. revert files2.
  induction files1 as [|[f1 c1] files1 IH]; intros [|[f2 c2] files2] H1 H2 Heq;
    try discriminate; [done |].
  simpl in H1, H2, Heq.
  apply andb_true_iff in H1 as [H1 Hrest1]. apply andb_true_iff in H2 as [H2 Hrest2].
  apply andb_true_iff in H1 as [H1 _]. apply andb_true_iff in H1 as [H1 _].
  apply andb_true_iff in H2 as [H2 _]. apply andb_true_iff in H2 as [H2 _].
  injection Heq as Hhead Htail. simpl in Hhead. rewrite !append_nil in Hhead.
  destruct (name_content_inj _ _ _ _ H1 H2 Hhead) as [-> ->].
  by rewrite (IH files2 Hrest1 Hrest2 Htail).
Qed.

Lemma separable_no_newline files :
  separable files = true ->
  Forall (fun r => no_newline r = true) (map upsert_record files).
Proof.
  unfold separable. induction files as [|[f c] files IH]; simpl; intros H.
  - constructor.
  - apply andb_true_iff in H as [H Hrest].
    apply andb_true_iff in H as [H Hc]. apply andb_true_iff in H as [_ Hf].
    constructor; [| by apply IH].
    unfold upsert_record, no_newline in *. simpl.
    rewrite !all_chars_append, Hf, Hc. done.
Qed.

Lemma length_append s t :
  String.length (s +:+ t) = String.length s + String.length t.
Proof.
  induction s as [|c s IH]; [done |].
  rewrite append_cons. simpl. by rewrite IH.
Qed.

End Decoding.

(** X11.  The text [upsertFiles] writes can be read back: two sequences
    of files whose names have no space or line break and whose contents
    have no line break are encoded alike only if they are the same
    sequence. *)
Theorem commandString_injective (files1 files2 : list (string * string)) :
  separable files1 = true ->
  separable files2 = true ->
  commandString files1 = commandString files2 ->
  files1 = files2.
Proof.
  intros H1 H2. rewrite !commandString_unlines. intros Heq.
  apply (upsert_records_inj _ _ H1 H2).
  apply unlines_inj; [by apply separable_no_newline .. | done].
Qed.

Lemma commandString_injective_witness :
  commandString [("a.txt", "hi there"); ("b.txt", "yo")]
  = commandString [("a.txt", "hi there"); ("b.txt", "yo")]
  ∧ [("a.txt", "hi there"); ("b.txt", "yo")]
    = [("a.txt", "hi there"); ("b.txt", "yo")].
Proof.
  split; [reflexivity |].
  apply (commandString_injective [("a.txt", "hi there"); ("b.txt", "yo")]
           [("a.txt", "hi there"); ("b.txt", "yo")]); reflexivity.
Defined.

(** X12.  Without those conditions the text does not tell the files
    apart.  A space in a file name reads as the end of the name: the file
    [a b] with content [c] and the file [a] with content [b c] are written
    alike.  A line break in a content reads as the end of the record: one
    file whose content goes on with an [upsert] line is written like two
    files. *)
Theorem commandString_ambiguous (a b c : string) :
  commandString [(a +:+ " " +:+ b, c)] = commandString [(a, b +:+ " " +:+ c)]
  ∧ (a +:+ " " +:+ b, c) ≠ (a, b +:+ " " +:+ c)
  ∧ commandString [(a, b +:+ str newline +:+ "upsert " +:+ c +:+ " " +:+ b)]
    = commandString [(a, b); (c, b)].
Proof.
  split; [| split].
  - unfold commandString. simpl. by rewrite !append_assoc.
  - intros Heq. injection Heq as Heq _.
    apply (f_equal String.length) in Heq. rewrite length_append in Heq.
    simpl in Heq. lia.
  - unfold commandString. simpl. rewrite !append_nil. by rewrite !append_assoc.
Qed.

(** ** Refused commands *)

(** X13.  When the daemon refuses to create the exec instance, the
    delivery method rejects with the daemon's error and stops there: the
    exec is never started, and no container, file or session changes. *)
Theorem issue_exec_refused (c : Container) (cmd : Command) (w : World) (e : EngineError) :
  (∀ opts, fault (docker w) (ExecCreate c opts) = Some e) ->
  ∃ w' opts, issue c cmd w = (Rejected e, w')
             ∧ calls (docker w') = calls (docker w) ++ [ExecCreate c opts]
             ∧ containers (docker w') = containers (docker w)
             ∧ execs (docker w') = execs (docker w)
             ∧ sessionContainers w' = sessionContainers w.
Proof.
  intros Hfault. destruct (issue_one_shot c cmd) as [line ->].
  exists (set_docker (Docker.log (ExecCreate c (sh_c line)) (docker w)) w), (sh_c line).
  split; [| done].
  unfold one_shot, bind, engine, Docker.exec, Docker.request.
  by rewrite Hfault.
Qed.

Lemma issue_exec_refused_witness :
  ∃ w' opts,
    issue 0 (Input "42") (Scenario.with_fault Scenario.no_exec Scenario.busy)
    = (Rejected "exec create failed", w')
    ∧ calls (docker w')
      = calls (docker (Scenario.with_fault Scenario.no_exec Scenario.busy))
          ++ [ExecCreate 0 opts]
    ∧ containers (docker w')
      = containers (docker (Scenario.with_fault Scenario.no_exec Scenario.busy))
    ∧ execs (docker w')
      = execs (docker (Scenario.with_fault Scenario.no_exec Scenario.busy))
    ∧ sessionContainers w'
      = sessionContainers (Scenario.with_fault Scenario.no_exec Scenario.busy).
Proof.
  apply (issue_exec_refused 0 (Input "42")
           (Scenario.with_fault Scenario.no_exec Scenario.busy)).
  reflexivity.
Defined.

(** X14.  When the daemon creates the exec instance and refuses to start
    it, the delivery method rejects with the daemon's error; the command
    did not run, so the container's files and history are what they were,
    and the exec instance that was created stays in the engine. *)
Theorem issue_start_refused (c : Container) (cmd : Command) (w : World) (e : EngineError) :
  (∃ st, container_state c w = Some st ∧ c_running st = true) ->
  (∀ opts, fault (docker w) (ExecCreate c opts) = None) ->
  (∀ x opts, fault (docker w) (ExecStart x opts) = Some e) ->
  ∃ w' opts, issue c cmd w = (Rejected e, w')
             ∧ calls (docker w')
               = calls (docker w)
                   ++ [ExecCreate c opts;
                       ExecStart (length (execs (docker w))) {| Detach := false |}]
             ∧ execs (docker w') = execs (docker w) ++ [(c, opts)]
             ∧ containers (docker w') = containers (docker w)
             ∧ sessionContainers w' = sessionContainers w.
Proof.
  intros (st & Hst & Hrun) Hcreate Hstart.
  destruct (issue_one_shot c cmd) as [line ->].
  eexists _, (sh_c line).
  unfold container_state in Hst.
  unfold one_shot, bind, engine, Docker.exec, Docker.request. simpl.
  rewrite Hcreate, Hst, Hrun. simpl.
  unfold Docker.exec_start, Docker.request. simpl.
  rewrite Hstart. split; [reflexivity |]. simpl.
  by rewrite <- app_assoc.
Qed.

Lemma issue_start_refused_witness :
  ∃ w' opts,
    issue 0 Run (Scenario.with_fault Scenario.no_exec_start Scenario.busy)
    = (Rejected "exec start failed", w')
    ∧ calls (docker w')
      = calls (docker (Scenario.with_fault Scenario.no_exec_start Scenario.busy))
          ++ [ExecCreate 0 opts;
              ExecStart
                (length (execs (docker (Scenario.with_fault Scenario.no_exec_start
                                          Scenario.busy))))
                {| Detach := false |}]
    ∧ execs (docker w')
      = execs (docker (Scenario.with_fault Scenario.no_exec_start Scenario.busy))
          ++ [(0, opts)]
    ∧ containers (docker w')
      = containers (docker (Scenario.with_fault Scenario.no_exec_start Scenario.busy))
    ∧ sessionContainers w'
      = sessionContainers (Scenario.with_fault Scenario.no_exec_start Scenario.busy).
Proof.
  apply (issue_start_refused 0 Run
           (Scenario.with_fault Scenario.no_exec_start Scenario.busy)).
  - eexists. split; reflexivity.
  - reflexivity.
  - reflexivity.
Defined.

(** ** A session from start to finish *)

(** X15.  On a new service whose daemon refuses nothing, a session that
    is started, resolved by the id it returned and then sent clean
    commands goes through: the id resolves to the session's container,
    every command is served, the records written are those of the
    commands in order, and the control file ends up holding what the last
    replacing command and the inputs after it left. *)
Theorem session_from_start_to_commands
    (env : gmap string string) (g : Engine) (ids : nat -> string) (dir : string)
    (cmds : list Command) :
  (∀ call, fault g call = None) ->
  forallb Protocol.clean_command cmds = true ->
  ∃ c w1 w2 w3,
    startPythonSession (new_ExecutionWsService env g ids dir) = (Fulfilled (ids 0), w1)
    ∧ getContainer (ids 0) w1 = (Fulfilled (Some c), w2)
    ∧ issue_all c cmds w2 = (Fulfilled tt, w3)
    ∧ delivered c w3 = flat_map Protocol.records_of cmds
    ∧ (records <$> control_text c w3) = Some (fold_left file_after cmds []).
Proof.
  intros Hquiet Hclean.
  set (w0 := new_ExecutionWsService env g ids dir).
  pose proof (startPythonSession_world w0) as Hworld. cbv zeta in Hworld.
  change (docker w0) with g in Hworld. rewrite !Hquiet in Hworld.
  match type of Hworld with _ = (_, ?w) => set (w1 := w) in * end.
  set (c := length (containers g)) in *.
  set (w2 := (getContainer (ids 0) w1).2).
  assert (container_state c w2
          = Some (mkContainerState (session_options (pythonImage w0) (runtime w0))
                    true (Some ∅) [])) as Hst.
  { unfold container_state. simpl. by apply list_lookup_middle. }
  assert (accepting c w2) as Hacc.
  { split; [| split; intros; apply Hquiet]. eexists. split; [exact Hst | done]. }
  assert (control_text c w2 = Some EmptyString) as Hold.
  { unfold control_text. by rewrite Hst. }
  assert (delivered c w2 = []) as Hnone.
  { unfold delivered, history. by rewrite Hst. }
  destruct (issue_all_served c cmds w2 EmptyString Hacc Hold eq_refl Hclean)
    as (w3 & new & Hall & Hdelivered & Hnew & _ & Hrecords).
  exists c, w1, w2, w3. split; [exact Hworld |]. split; [| split; [done | split]].
  - unfold w2. rewrite (surjective_pairing (getContainer (ids 0) w1)). f_equal.
    rewrite getContainer_lookup. f_equal. simpl. apply lookup_insert_eq.
  - by rewrite Hdelivered, Hnone.
  - rewrite Hnew. simpl. f_equal. exact Hrecords.
Qed.

Lemma session_from_start_to_commands_witness :
  ∃ c w1 w2 w3,
    startPythonSession Sample.fresh = (Fulfilled "session-0", w1)
    ∧ getContainer "session-0" w1 = (Fulfilled (Some c), w2)
    ∧ issue_all c [Upsert [("main.py", "cHJpbnQoMSk=")]; Run; Input "7"] w2
      = (Fulfilled tt, w3)
    ∧ delivered c w3 = ["upsert main.py cHJpbnQoMSk="; "run"; "input 7"]
    ∧ (records <$> control_text c w3) = Some ["run"; "input 7"].
Proof.
  apply (session_from_start_to_commands ∅ Sample.idle_engine Sample.ids "/app"
           [Upsert [("main.py", "cHJpbnQoMSk=")]; Run; Input "7"]).
  - intros call. reflexivity.
  - reflexivity.
Defined.

(** X16.  When the source of ids gives the same id twice, the second
    session takes the id over: both sessions are started and return that
    id, the id resolves to the second container, and the first container
    keeps running with no session of the table leading to it. *)
Theorem repeated_id_orphans_first_container (w : World) :
  provisioning w ->
  registry_sound w ->
  uuid_source w (S (uuid_drawn w)) = uuid_source w (uuid_drawn w) ->
  ∃ w', start_sessions 2 w
        = (Fulfilled [uuid_source w (uuid_drawn w); uuid_source w (uuid_drawn w)], w')
        ∧ (getContainer (uuid_source w (uuid_drawn w)) w').1
          = Fulfilled (Some (S (length (containers (docker w)))))
        ∧ (∃ st, container_state (length (containers (docker w))) w' = Some st
                 ∧ c_running st = true)
        ∧ ∀ sessionId,
            sessionContainers w' !! sessionId ≠ Some (length (containers (docker w))).
Proof.
  intros Hprov Hsound Hsame.
  destruct (startPythonSession_served w Hprov)
    as (w1 & Hstart1 & Htable1 & Hcs1 & Hfault1 & Hsource1 & Hdrawn1).
  assert (provisioning w1) as Hprov1.
  { destruct Hprov as [Hc Hs]. split; intros; rewrite Hfault1; [apply Hc | apply Hs]. }
  destruct (startPythonSession_served w1 Hprov1)
    as (w2 & Hstart2 & Htable2 & Hcs2 & _ & _ & _).
  rewrite Hsource1, Hdrawn1, Hsame, Htable1, Hcs1, insert_insert_eq, length_app
    in Htable2.
  simpl in Htable2. rewrite Nat.add_1_r in Htable2.
  rewrite Hsource1, Hdrawn1, Hsame in Hstart2.
  exists w2. split; [| split; [| split]].
  - simpl. unfold bind. by rewrite Hstart1, Hstart2.
  - rewrite getContainer_lookup, Htable2. f_equal. apply lookup_insert_eq.
  - eexists. split.
    + unfold container_state. rewrite Hcs2, Hcs1.
      apply lookup_app_l_Some. by apply list_lookup_middle.
    + reflexivity.
  - intros sessionId Hbound. rewrite Htable2 in Hbound.
    destruct (decide (uuid_source w (uuid_drawn w) = sessionId)) as [<- | Hne].
    + rewrite lookup_insert_eq in Hbound. injection Hbound as Hbound. lia.
    + rewrite lookup_insert_ne in Hbound by done.
      destruct (Hsound _ _ Hbound) as (st & Hst & _).
      unfold container_state in Hst. apply lookup_lt_Some in Hst. lia.
Qed.

Lemma repeated_id_orphans_first_container_witness :
  ∃ w', start_sessions 2 Scenario.repeating
        = (Fulfilled ["session-x"; "session-x"], w')
        ∧ (getContainer "session-x" w').1 = Fulfilled (Some 1)
        ∧ (∃ st, container_state 0 w' = Some st ∧ c_running st = true)
        ∧ ∀ sessionId, sessionContainers w' !! sessionId ≠ Some 0.
Proof.
  apply (repeated_id_orphans_first_container Scenario.repeating).
  - split; intros; reflexivity.
  - intros sessionId c Hbound. simpl in Hbound. by rewrite lookup_empty in Hbound.
  - reflexivity.
Defined.
